(** * Flipper desktop client: plugin admission pipeline and Android device watcher

    A shallow embedding of two dispatchers of the Flipper desktop client:

    - the plugin loader ([checkDisabled], [checkGK], [requirePlugin] and the
      pipeline of its default export), in [Module Plugins];
    - the Android device watcher ([createDevice], [getRunningEmulatorName],
      [registerDevice], [unregisterDevices] and the tracker handlers), in
      [Module Devices].

    JavaScript values are modelled by a small tagged type, objects live in a
    heap indexed by references (the loader mutates the classes it loads), and
    promises are modelled by the way they settle. *)

From Stdlib Require Import Ascii String.
From stdpp Require Import base option list strings gmap sets.

Open Scope string_scope.
Open Scope list_scope.

(** ** JavaScript values *)

Module Js.

(** The values the modelled code tests or copies.  [VObject r] stands for
    any object, array, class or function and is identified by its heap
    reference [r]. *)
Inductive value : Type :=
| VUndefined
| VNull
| VBool (b : bool)
| VNumber (z : Z)
| VNaN
| VString (s : string)
| VObject (r : nat).

#[global] Instance value_eq_dec : EqDecision value.
Proof. solve_decision. Defined.

(** [Boolean(v)], the test behind [!v], [v || w] and [filter(Boolean)]. *)
Definition truthy (v : value) : bool :=
  match v with
  | VUndefined | VNull | VNaN => false
  | VBool b => b
  | VNumber z => negb (Z.eqb z 0)
  | VString s => negb (String.eqb s "")
  | VObject _ => true
  end.

(** [a || b] *)
Definition or (a b : value) : value := if truthy a then a else b.

(** [v == null]: true of [null] and [undefined] only. *)
Definition nullish (v : value) : bool :=
  match v with
  | VUndefined | VNull => true
  | _ => false
  end.

(** An object: its own data properties, whether its [prototype] property
    is an instance of [FlipperBasePlugin], and the names of the properties
    that are not writable (for a class at least [length], [name] and
    [prototype]). *)
Record object : Type := Object {
  props : gmap string value;
  extendsBasePlugin : bool;
  nonWritable : gset string;
}.

Abbreviation heap := (gmap nat object).

(** [v[key]] for a non-nullish [v]; a primitive has none of the properties
    the loader asks for. *)
Definition get_prop (h : heap) (v : value) (key : string) : value :=
  match v with
  | VObject r =>
      match h !! r with
      | Some o => default VUndefined (props o !! key)
      | None => VUndefined
      end
  | _ => VUndefined
  end.

(** [o[key] = v] on the object at reference [r]. *)
Definition set_prop (h : heap) (r : nat) (key : string) (v : value) : heap :=
  alter (fun o => Object (<[key := v]> (props o)) (extendsBasePlugin o)
                    (nonWritable o)) r h.

(** Whether the property [key] of the object at reference [r] is not
    writable: in strict mode, as in a module, an assignment to it throws a
    [TypeError]. *)
Definition read_only (h : heap) (r : nat) (key : string) : bool :=
  match h !! r with
  | Some o => bool_decide (key ∈ nonWritable o)
  | None => false
  end.

(** [v.prototype instanceof FlipperBasePlugin] *)
Definition prototype_instanceof_FlipperBasePlugin (h : heap) (v : value) : bool :=
  match v with
  | VObject r =>
      match h !! r with
      | Some o => extendsBasePlugin o
      | None => false
      end
  | _ => false
  end.

#[global] Arguments get_prop : simpl never.
#[global] Arguments set_prop : simpl never.
#[global] Arguments read_only : simpl never.
#[global] Arguments prototype_instanceof_FlipperBasePlugin : simpl never.

(** [Array.prototype.filter] with a callback that mutates captured state. *)
Fixpoint filter_st {S A : Type} (f : S -> A -> bool * S) (s : S) (l : list A)
  : list A * S :=
  match l with
  | [] => ([], s)
  | x :: l' =>
      let '(keep, s1) := f s x in
      let '(rest, s2) := filter_st f s1 l' in
      (if keep then x :: rest else rest, s2)
  end.

(** [Array.prototype.map] with a callback that mutates captured state. *)
Fixpoint map_st {S A B : Type} (f : S -> A -> B * S) (s : S) (l : list A)
  : list B * S :=
  match l with
  | [] => ([], s)
  | x :: l' =>
      let '(y, s1) := f s x in
      let '(rest, s2) := map_st f s1 l' in
      (y :: rest, s2)
  end.

End Js.

(** ** The plugin loader *)

Module Plugins.
Import Js.

(** [PluginDefinition]: a parsed manifest entry, its own properties in
    insertion order. *)
Definition PluginDefinition : Type := list (string * value).

(** [pluginDefinition[key]] *)
Fixpoint get (def : PluginDefinition) (key : string) : value :=
  match def with
  | [] => VUndefined
  | (k, v) :: def' => if decide (k = key) then v else get def' key
  end.

(** [Object.keys(pluginDefinition)] *)
Definition keys (def : PluginDefinition) : list string := def.*1.

(** What the [catch] clause of [requirePlugin] can see in [e.message]. *)
Inductive message : Type :=
| RequireFailed (why : string)
    (* whatever [reqFn] threw *)
| CannotReadProperty (key : string)
    (* TypeError: the module is [null] or [undefined] *)
| NotAFlipperBasePlugin (pluginName : value)
    (* `Plugin ${plugin.name} is not a FlipperBasePlugin` *)
| IdNotAllowed
    (* 'Field "id" not allowed in package.json. ...' *)
| CannotAssignToReadOnly (key : string) (object : nat).
    (* TypeError: Cannot assign to read only property [key] of the class *)

#[global] Instance message_eq_dec : EqDecision message.
Proof. solve_decision. Defined.

Section Loader.

(** [config().disabledPlugins], or [None] when [config()] throws. *)
Variable config_disabledPlugins : option (gset string).
(** [GK.get] *)
Variable GK_get : value -> bool.
(** [reqFn], by default [electronRequire]: the module, or what it threw. *)
Variable reqFn : value -> message + value.

(** [disabledList.has(v)] for a [Set<string>] *)
Definition has (disabledList : gset string) (v : value) : bool :=
  match v with
  | VString s => bool_decide (s ∈ disabledList)
  | _ => false
  end.

Definition checkDisabled (disabledPlugins : list PluginDefinition)
    (plugin : PluginDefinition) : bool * list PluginDefinition :=
  let disabledList : gset string :=
    match config_disabledPlugins with
    | Some s => s
    | None => ∅
    end in
  let disabledPlugins :=
    if has disabledList (get plugin "name")
    then disabledPlugins ++ [plugin]
    else disabledPlugins in
  (negb (has disabledList (get plugin "name")), disabledPlugins).

(** The state [checkGK] touches: the captured array and the sequence of
    keys [GK.get] was asked about. *)
Record gkState : Type := GkState {
  gatekeepedPlugins : list PluginDefinition;
  gkQueries : list value;
}.

Definition checkGK (st : gkState) (plugin : PluginDefinition)
  : bool * gkState :=
  if negb (truthy (get plugin "gatekeeper")) then (true, st)
  else
    let result := GK_get (get plugin "gatekeeper") in
    let queries := gkQueries st ++ [get plugin "gatekeeper"] in
    if negb result
    then (result, GkState (gatekeepedPlugins st ++ [plugin]) queries)
    else (result, GkState (gatekeepedPlugins st) queries).

(** [plugin[key] = v] in strict mode: the heap after the assignment, or
    the [TypeError] it throws when the property is not writable. *)
Definition assign (h : heap) (plugin : nat) (key : string) (v : value)
  : message + heap :=
  if read_only h plugin key then inl (CannotAssignToReadOnly key plugin)
  else inr (set_prop h plugin key v).

(** The callback of [Object.keys(pluginDefinition).forEach]: the heap
    after it, or the error it throws. *)
Definition backfill_key (def : PluginDefinition) (plugin : nat) (h : heap)
    (key : string) : message + heap :=
  if decide (key = "name") then
    assign h plugin "id"
      (or (get_prop h (VObject plugin) "id") (get def "name"))
  else if decide (key = "id") then
    inl IdNotAllowed
  else
    assign h plugin key
      (or (get_prop h (VObject plugin) key) (get def key)).

(** [forEach] over the keys; a throw leaves the earlier writes in place. *)
Fixpoint backfill (def : PluginDefinition) (plugin : nat)
    (ks : list string) (h : heap) : heap * option message :=
  match ks with
  | [] => (h, None)
  | key :: ks' =>
      match backfill_key def plugin h key with
      | inl e => (h, Some e)
      | inr h' => backfill def plugin ks' h'
      end
  end.

(** The [try] block of [requirePlugin]. *)
Definition try_require (def : PluginDefinition) (h : heap)
  : heap * (message + value) :=
  match reqFn (get def "out") with
  | inl e => (h, inl e)
  | inr m =>
      if nullish m then (h, inl (CannotReadProperty "default"))
      else
        let plugin :=
          if truthy (get_prop h m "default")
          then get_prop h m "default" else m in
        if negb (prototype_instanceof_FlipperBasePlugin h plugin)
        then (h, inl (NotAFlipperBasePlugin (get_prop h plugin "name")))
        else
          match plugin with
          | VObject r =>
              match backfill def r (keys def) h with
              | (h', Some e) => (h', inl e)
              | (h', None) => (h', inr plugin)
              end
          | _ => (h, inl (NotAFlipperBasePlugin (get_prop h plugin "name")))
          end
  end.

(** The state [requirePlugin] touches: the captured array and the heap
    holding the loaded classes. *)
Record loadState : Type := LoadState {
  failedPlugins : list (PluginDefinition * message);
  classes : heap;
}.

(** [requirePlugin(failedPlugins, reqFn)(pluginDefinition)]; [None] is the
    [null] of the [catch] clause. *)
Definition requirePlugin (st : loadState) (pluginDefinition : PluginDefinition)
  : option value * loadState :=
  match try_require pluginDefinition (classes st) with
  | (h, inr plugin) => (Some plugin, LoadState (failedPlugins st) h)
  | (h, inl e) =>
      (None, LoadState (failedPlugins st ++ [(pluginDefinition, e)]) h)
  end.

(** [.filter(Boolean)] on the results of the [map]. *)
Definition filter_Boolean (l : list (option value)) : list value :=
  omap (fun r => match r with
                 | Some v => if truthy v then Some v else None
                 | None => None
                 end) l.

(** What the default export dispatches to the store. *)
Record admission : Type := Admission {
  registerPlugins : list value;
  addGatekeepedPlugins : list PluginDefinition;
  addDisabledPlugins : list PluginDefinition;
  addFailedPlugins : list (PluginDefinition * message);
  queriedGatekeepers : list value;
  loadedClasses : heap;
}.

(** The pipeline of the default export, on the results of
    [getBundledPlugins()] and [getDynamicPlugins()]. *)
Definition initialPlugins (bundled dynamic : list PluginDefinition)
    (h : heap) : admission :=
  let '(enabled, disabledPlugins) :=
    filter_st checkDisabled [] (bundled ++ dynamic) in
  let '(allowed, gk) := filter_st checkGK (GkState [] []) enabled in
  let '(loaded, ld) := map_st requirePlugin (LoadState [] h) allowed in
  Admission (filter_Boolean loaded) (gatekeepedPlugins gk) disabledPlugins
    (failedPlugins ld) (gkQueries gk) (classes ld).

(** *** The admission outcome of the specification

    [Admitted(loadedPlugin) | Disabled(descriptor) | Gatekept(descriptor)
    | Failed(descriptor, reason)], decided descriptor by descriptor in
    the fixed order disable check, gatekeeper check, load.  The first
    variant is spelled [Accepted] here. *)
Inductive outcome : Type :=
| Accepted (descriptor : PluginDefinition) (loadedPlugin : value)
| Disabled (descriptor : PluginDefinition)
| Gatekept (descriptor : PluginDefinition)
| Failed (descriptor : PluginDefinition) (reason : message).

Definition descriptor_of (o : outcome) : PluginDefinition :=
  match o with
  | Accepted d _ | Disabled d | Gatekept d | Failed d _ => d
  end.

Definition accepted_of (o : outcome) : option value :=
  match o with Accepted _ p => Some p | _ => None end.
Definition disabled_of (o : outcome) : option PluginDefinition :=
  match o with Disabled d => Some d | _ => None end.
Definition gatekept_of (o : outcome) : option PluginDefinition :=
  match o with Gatekept d => Some d | _ => None end.
Definition failed_of (o : outcome) : option (PluginDefinition * message) :=
  match o with Failed d e => Some (d, e) | _ => None end.

(** The descriptor's name is in the disabled-plugin configuration. *)
Definition is_disabled (d : PluginDefinition) : bool :=
  has (default ∅ config_disabledPlugins) (get d "name").

(** The descriptor has a gatekeeper key. *)
Definition has_gatekeeper (d : PluginDefinition) : bool :=
  truthy (get d "gatekeeper").

(** The descriptor has a gatekeeper key that the service reports
    inactive. *)
Definition is_gatekept (d : PluginDefinition) : bool :=
  has_gatekeeper d && negb (GK_get (get d "gatekeeper")).

(** The answer of [checkGK], without its side effects. *)
Definition passes_gk (d : PluginDefinition) : bool :=
  negb (has_gatekeeper d) || GK_get (get d "gatekeeper").

(** Specification-side classification: one outcome per descriptor, in
    input order, together with the heap after the loads. *)
Fixpoint classify (h : heap) (l : list PluginDefinition)
  : list outcome * heap :=
  match l with
  | [] => ([], h)
  | d :: l' =>
      if is_disabled d then
        let '(os, h') := classify h l' in (Disabled d :: os, h')
      else if is_gatekept d then
        let '(os, h') := classify h l' in (Gatekept d :: os, h')
      else
        match try_require d h with
        | (h1, inr p) =>
            let '(os, h') := classify h1 l' in (Accepted d p :: os, h')
        | (h1, inl e) =>
            let '(os, h') := classify h1 l' in (Failed d e :: os, h')
        end
  end.

(** What an outcome says about its descriptor. *)
Definition outcome_sound (o : outcome) : Prop :=
  match o with
  | Disabled d => is_disabled d = true
  | Gatekept d => is_disabled d = false /\ is_gatekept d = true
  | Accepted d p =>
      is_disabled d = false /\ is_gatekept d = false
      /\ exists h0 h1, try_require d h0 = (h1, inr p)
  | Failed d e =>
      is_disabled d = false /\ is_gatekept d = false
      /\ exists h0 h1, try_require d h0 = (h1, inl e)
  end.

End Loader.

(** *** Sample inputs *)

(** The properties of every class that are not writable. *)
Definition class_nonWritable : gset string :=
  {[ "length"; "name"; "prototype" ]}.

(** A heap with one plugin class, at reference 0, that declares [props]. *)
Definition one_class (props : gmap string value) : heap :=
  {[ 0 := Object props true class_nonWritable ]}.

(** A loader for which every module is that class. *)
Definition the_class : value -> message + value :=
  fun _ => inr (VObject 0).

Definition config_C : option (gset string) := Some {[ "C" ]}.
Definition GK_off : value -> bool := fun _ => false.
Definition GK_on : value -> bool := fun _ => true.

Definition descriptor_A : PluginDefinition := [("name", VString "A")].
Definition descriptor_B : PluginDefinition :=
  [("name", VString "B"); ("gatekeeper", VString "gk_b")].
Definition descriptor_C : PluginDefinition := [("name", VString "C")].
Definition descriptor_C_gk : PluginDefinition :=
  [("name", VString "C"); ("gatekeeper", VString "gk_c")].
Definition descriptor_C_id : PluginDefinition :=
  [("id", VString "c"); ("name", VString "C")].
Definition descriptor_A_id : PluginDefinition :=
  [("name", VString "A"); ("id", VString "a")].
Definition descriptor_titled : PluginDefinition :=
  [("name", VString "P"); ("title", VString "X")].
Definition descriptor_titled_icon : PluginDefinition :=
  [("name", VString "P"); ("title", VString "X"); ("icon", VString "star")].

End Plugins.

(** ** The Android device watcher *)

Module Devices.
Import Js.

(** *** Strings

    Strings are sequences of 8-bit code units; the white space and line
    terminators of JavaScript beyond U+00FF are not representable. *)

Definition code (c : ascii) : nat := nat_of_ascii c.

(** White space and line terminators, as [String.prototype.trim] strips
    them. *)
Definition is_whitespace (c : ascii) : bool :=
  bool_decide (code c ∈ [9; 10; 11; 12; 13; 32; 160]).

(** What [.] in a regular expression does not match. *)
Definition is_line_terminator (c : ascii) : bool :=
  bool_decide (code c ∈ [10; 13]).

Fixpoint trim_start (l : list ascii) : list ascii :=
  match l with
  | c :: l' => if is_whitespace c then trim_start l' else l
  | [] => []
  end.

(** [s.trim()] *)
Definition trim (s : string) : string :=
  string_of_list_ascii
    (rev (trim_start (rev (trim_start (list_ascii_of_string s))))).

Fixpoint take_line (l : list ascii) : list ascii :=
  match l with
  | c :: l' => if is_line_terminator c then [] else c :: take_line l'
  | [] => []
  end.

(** The characters of CR LF ["OK"], last first. *)
Definition KO_lf_cr : list ascii :=
  ["K"%char; "O"%char; ascii_of_nat 10; ascii_of_nat 13].

(** [s.match(re)] for the pattern of [getRunningEmulatorName] (a greedy
    group of characters other than line terminators, then CR LF ["OK"] at
    the end of the input), giving [match[1]]: the input has to end in
    CR LF ["OK"], and the leftmost match starts the group right after the
    last line terminator before that ending. *)
Definition match_avd_name (s : string) : option string :=
  let r := rev (list_ascii_of_string s) in
  if bool_decide (take 4 r = KO_lf_cr)
  then Some (string_of_list_ascii (rev (take_line (drop 4 r))))
  else None.

(** [s.replace(pat, rep)] with a string pattern: the first occurrence. *)
Fixpoint replace (pat rep s : string) : string :=
  if String.prefix pat s
  then String.append rep (String.substring (String.length pat)
                            (String.length s - String.length pat) s)
  else match s with
       | EmptyString => EmptyString
       | String c s' => String c (replace pat rep s')
       end.

(** *** Devices *)

(** What the tracker reports about a device. *)
Record deviceData : Type := DeviceData {
  device_id : string;
  device_type : string;
}.

Inductive DeviceType : Type := emulator | physical.

#[global] Instance DeviceType_eq_dec : EqDecision DeviceType.
Proof. solve_decision. Defined.

Record ServerPorts : Type := Ports {
  secure : Z;
  insecure : Z;
}.

(** A device handle of the registry.  [isAndroidDevice] is the answer of
    [device instanceof AndroidDevice]. *)
Record BaseDevice : Type := Device {
  serial : string;
  deviceType : DeviceType;
  title : value;
  isArchived : bool;
  isAndroidDevice : bool;
}.

#[global] Instance BaseDevice_eq_dec : EqDecision BaseDevice.
Proof. solve_decision. Defined.

(** Modelled from the spec: the class [AndroidDevice] is missing.
    [new AndroidDevice(serial, deviceType, title, adb)] is a handle with
    that identifier, kind and display name, not archived. *)
Definition AndroidDevice (serial : string) (deviceType : DeviceType)
    (title : value) : BaseDevice :=
  Device serial deviceType title false true.

(** Modelled from the spec: the method [BaseDevice.archive] is missing.
    The specification has a removed or offline device keep its registry
    entry, marked archived. *)
Definition archive (d : BaseDevice) : BaseDevice :=
  Device (serial d) (deviceType d) (title d) true (isAndroidDevice d).

(** *** The registry

    The reducer behind [store.dispatch] is not part of the sources at hand.
    The registry is kept as the array [connections.devices] the watcher
    reads with [filter], [find] and [map]. *)

(** Modelled from the spec: the reducer case [REGISTER_DEVICE] is missing.
    The specification describes the device registry as a mapping from
    device identifier to device handle into which a device is upserted: the
    payload is entered under its serial and takes the place of an entry
    with the same serial. *)
Fixpoint REGISTER_DEVICE (payload : BaseDevice) (devices : list BaseDevice)
  : list BaseDevice :=
  match devices with
  | [] => [payload]
  | d :: devices' =>
      if decide (serial d = serial payload)
      then payload :: devices'
      else d :: REGISTER_DEVICE payload devices'
  end.

(** Modelled from the spec: the reducer case [UNREGISTER_DEVICES] is
    missing.  The entries whose serial is in the payload are removed from
    the registry. *)
Definition UNREGISTER_DEVICES (payload : gset string)
    (devices : list BaseDevice) : list BaseDevice :=
  List.filter (fun d => negb (bool_decide (serial d ∈ payload))) devices.

(** *** Promises and effects *)

(** How a promise ends: resolved, rejected, or left pending for ever. *)
Inductive settled (A : Type) : Type :=
| Resolved (a : A)
| Rejected (reason : value)
| NeverSettles.
Arguments Resolved {A} a.
Arguments Rejected {A} reason.
Arguments NeverSettles {A}.

(** What the watcher does to the outside, in order. *)
Inductive effect : Type :=
| GetProperties (id : string)
    (* adbClient.getProperties(device.id) *)
| ExecAvdName (port : string)
    (* the netcat probe on the emulator's console port *)
| Reverse (serial : string) (ports : list Z)
    (* androidDevice.reverse([ports.secure, ports.insecure]) *)
| TrackRegisterDevice (name : value) (serial : string)
    (* logger.track('usage', 'register-device', ...) *)
| TrackUnregisterDevice (serial : string)
    (* logger.track('usage', 'unregister-device', ...) *)
| RegisterDeviceCallbackOnPlugins (device : BaseDevice)
| ConsoleError (what : string)
| SetTimeout_watchAndroidDevices (ms : Z)
| Kill.
    (* client.kill() *)

#[global] Instance effect_eq_dec : EqDecision effect.
Proof. solve_decision. Defined.

(** *** [getRunningEmulatorName] and [createDevice] *)

(** The callback of [child_process.exec] in [getRunningEmulatorName],
    applied to [(error, data)]. *)
Definition getRunningEmulatorName (error data : value) : settled value :=
  match data with
  | VString s =>
      match match_avd_name (trim s) with
      | Some name => Resolved (VString name)
      | None => Resolved VNull
      end
  | _ => Rejected error
  end.

Definition createDevice_type (device : deviceData) : DeviceType :=
  if negb (String.eqb (device_type device) "device")
     || String.prefix "emulator" (device_id device)
  then emulator else physical.

(** [props['ro.product.model']] *)
Definition ro_product_model (props : gmap string value) : value :=
  default VUndefined (props !! "ro.product.model").

(** The promise [createDevice] returns, given how [getProperties] settles
    and what the probe's callback receives.  Only [resolve] is ever
    called: when [getProperties] does not resolve the [then] callback
    never runs, and when the [await] inside it throws the callback's own
    promise rejects, which nobody observes. *)
Definition createDevice (device : deviceData)
    (properties : settled (gmap string value)) (error data : value)
  : settled BaseDevice :=
  let type := createDevice_type device in
  match properties with
  | Resolved props =>
      let name := ro_product_model props in
      match type with
      | emulator =>
          match getRunningEmulatorName error data with
          | Resolved probed =>
              Resolved (AndroidDevice (device_id device) type (or probed name))
          | _ => NeverSettles
          end
      | physical => Resolved (AndroidDevice (device_id device) type name)
      end
  | _ => NeverSettles
  end.

(** *** The watcher

    The store slices the watcher reads and writes, the calls of
    [registerDevice] that are under way, and the effects so far. *)

(** Where a call of [registerDevice] stands. *)
Inductive stage : Type :=
| AwaitingProperties
    (* [adbClient.getProperties(device.id)] has not settled *)
| AwaitingEmulatorName (props : gmap string value)
    (* [await getRunningEmulatorName(device.id)] has not settled *)
| Registered
    (* [registerDevice] ran to its end *)
| Abandoned.
    (* the promise of [createDevice] will never settle *)

Record registration : Type := Registration {
  deviceData_of : deviceData;
  ports_of : option ServerPorts;
  progress : stage;
}.

Record watcher : Type := Watcher {
  devices : list BaseDevice;
    (* store.getState().connections.devices *)
  serverPorts : option ServerPorts;
    (* store.getState().application.serverPorts *)
  inflight : list registration;
    (* the calls of [registerDevice], oldest first *)
  effects : list effect;
}.

Definition with_devices (ds : list BaseDevice) (w : watcher) : watcher :=
  Watcher ds (serverPorts w) (inflight w) (effects w).
Definition with_progress (k : nat) (p : stage) (w : watcher) : watcher :=
  Watcher (devices w) (serverPorts w)
    (alter (fun r => Registration (deviceData_of r) (ports_of r) p) k
       (inflight w))
    (effects w).
Definition doing (es : list effect) (w : watcher) : watcher :=
  Watcher (devices w) (serverPorts w) (inflight w) (effects w ++ es).

(** [registerDevice] up to its [await]: [createDevice] is called with the
    server ports read now, and asks for the device's properties. *)
Definition registerDevice (deviceData : deviceData) (w : watcher) : watcher :=
  Watcher (devices w) (serverPorts w)
    (inflight w ++ [Registration deviceData (serverPorts w) AwaitingProperties])
    (effects w ++ [GetProperties (device_id deviceData)]).

(** The serials of the archived registry entries with the serial of
    [androidDevice]. *)
Definition reconnectedDevices (androidDevice : BaseDevice)
    (devices : list BaseDevice) : list string :=
  map serial
    (List.filter
       (fun device =>
          bool_decide (serial device = serial androidDevice)
          && isArchived device)
       devices).

(** [registerDevice] after its [await], with the device [createDevice]
    resolved to. *)
Definition registerDevice_resume (androidDevice : BaseDevice) (w : watcher)
  : watcher :=
  let w1 :=
    doing [TrackRegisterDevice (title androidDevice) (serial androidDevice)] w in
  let w2 :=
    with_devices
      (UNREGISTER_DEVICES
         (list_to_set (reconnectedDevices androidDevice (devices w1)))
         (devices w1)) w1 in
  let w3 := with_devices (REGISTER_DEVICE androidDevice (devices w2)) w2 in
  doing [RegisterDeviceCallbackOnPlugins androidDevice] w3.

(** [devices.find(device => device.serial === id)] *)
Definition find_serial (id : string) (devices : list BaseDevice)
  : option BaseDevice :=
  List.find (fun device => bool_decide (serial device = id)) devices.

(** The archived copies [unregisterDevices] registers again. *)
Definition archivedDevices (deviceIds : list string)
    (devices : list BaseDevice) : list BaseDevice :=
  omap
    (fun id =>
       match find_serial id devices with
       | Some device =>
           if negb (isArchived device) then Some (archive device) else None
       | None => None
       end)
    deviceIds.

Definition unregisterDevices (deviceIds : list string) (w : watcher)
  : watcher :=
  let w1 := doing (map TrackUnregisterDevice deviceIds) w in
  let archived := archivedDevices deviceIds (devices w1) in
  let w2 :=
    with_devices (UNREGISTER_DEVICES (list_to_set deviceIds) (devices w1)) w1 in
  with_devices
    (foldl (fun ds payload => REGISTER_DEVICE payload ds) (devices w2) archived)
    w2.

(** What a handler ends with. *)
Inductive completion : Type :=
| Normal (w : watcher)
| Throw (message : string).

(** [tracker.on('error', ...)] *)
Definition on_error (message : string) (w : watcher) : completion :=
  if String.eqb message "Connection closed" then
    let deviceIDsToRemove :=
      map serial (List.filter isAndroidDevice (devices w)) in
    Normal
      (doing [ConsoleError "adb server was shutdown";
              SetTimeout_watchAndroidDevices 500]
         (unregisterDevices deviceIDsToRemove w))
  else Throw message.

(** [tracker.on('add', ...)] *)
Definition on_add (device : deviceData) (w : watcher) : watcher :=
  if negb (String.eqb (device_type device) "offline")
  then registerDevice device w
  else w.

(** [tracker.on('change', ...)] *)
Definition on_change (device : deviceData) (w : watcher) : watcher :=
  if String.eqb (device_type device) "offline"
  then unregisterDevices [device_id device] w
  else registerDevice device w.

(** [tracker.on('remove', ...)] *)
Definition on_remove (device : deviceData) (w : watcher) : watcher :=
  unregisterDevices [device_id device] w.

(** The function the default export returns. *)
Definition cleanup (w : watcher) : watcher := doing [Kill] w.

(** The promise of [createDevice] for call [k] ends as [result]: a
    resolved device is reversed onto the server ports and
    [registerDevice] goes on with it; otherwise the call stays where it
    is for ever. *)
Definition settle (k : nat) (r : registration) (result : settled BaseDevice)
    (w : watcher) : watcher :=
  match result with
  | Resolved androidDevice =>
      let reversed :=
        match ports_of r with
        | Some ports =>
            [Reverse (serial androidDevice) [secure ports; insecure ports]]
        | None => []
        end in
      registerDevice_resume androidDevice
        (with_progress k Registered (doing reversed w))
  | _ => with_progress k Abandoned w
  end.

(** [getProperties] resolves for call [k]: an emulator goes on to probe
    its console port for a name, a physical device is created. *)
Definition on_properties (k : nat) (props : gmap string value) (w : watcher)
  : watcher :=
  match inflight w !! k with
  | Some r =>
      match progress r with
      | AwaitingProperties =>
          match createDevice_type (deviceData_of r) with
          | emulator =>
              with_progress k (AwaitingEmulatorName props)
                (doing
                   [ExecAvdName
                      (replace "emulator-" "" (device_id (deviceData_of r)))]
                   w)
          | physical =>
              settle k r
                (createDevice (deviceData_of r) (Resolved props)
                   VUndefined VUndefined)
                w
          end
      | _ => w
      end
  | None => w
  end.

(** [getProperties] rejects for call [k]. *)
Definition on_properties_rejected (k : nat) (reason : value) (w : watcher)
  : watcher :=
  match inflight w !! k with
  | Some r =>
      match progress r with
      | AwaitingProperties =>
          settle k r
            (createDevice (deviceData_of r) (Rejected reason)
               VUndefined VUndefined)
            w
      | _ => w
      end
  | None => w
  end.

(** The callback of the probe runs for call [k]. *)
Definition on_exec (k : nat) (error data : value) (w : watcher) : watcher :=
  match inflight w !! k with
  | Some r =>
      match progress r with
      | AwaitingEmulatorName props =>
          settle k r
            (createDevice (deviceData_of r) (Resolved props) error data) w
      | _ => w
      end
  | None => w
  end.

(** What can happen to a running watcher. *)
Inductive event : Type :=
| TrackerError (message : string)
| TrackerAdd (device : deviceData)
| TrackerChange (device : deviceData)
| TrackerRemove (device : deviceData)
| PropertiesResolved (k : nat) (props : gmap string value)
| PropertiesRejected (k : nat) (reason : value)
| ExecCallback (k : nat) (error data : value)
| Cleanup.

Definition step (w : watcher) (e : event) : completion :=
  match e with
  | TrackerError message => on_error message w
  | TrackerAdd device => Normal (on_add device w)
  | TrackerChange device => Normal (on_change device w)
  | TrackerRemove device => Normal (on_remove device w)
  | PropertiesResolved k props => Normal (on_properties k props w)
  | PropertiesRejected k reason => Normal (on_properties_rejected k reason w)
  | ExecCallback k error data => Normal (on_exec k error data w)
  | Cleanup => Normal (cleanup w)
  end.

(** The watcher after a sequence of events; a throw ends it. *)
Fixpoint run (w : watcher) (es : list event) : completion :=
  match es with
  | [] => Normal w
  | e :: es' =>
      match step w e with
      | Normal w' => run w' es'
      | Throw message => Throw message
      end
  end.

(** A watcher started on an empty registry. *)
Definition started (ports : option ServerPorts) : watcher :=
  Watcher [] ports [] [].

(** Two watchers with the same store and the same calls under way; their
    effects so far may differ. *)
Definition same_store (a b : watcher) : Prop :=
  devices a = devices b
  /\ serverPorts a = serverPorts b
  /\ inflight a = inflight b.

(** Two handlers ending alike. *)
Definition same_completion (a b : completion) : Prop :=
  match a, b with
  | Normal wa, Normal wb => same_store wa wb
  | Throw ma, Throw mb => ma = mb
  | _, _ => False
  end.

(** Where call [k] stands. *)
Definition progress_of (k : nat) (w : watcher) : option stage :=
  progress <$> inflight w !! k.

(** *** Sample inputs *)

Definition emulator_5554 : deviceData := DeviceData "emulator-5554" "device".
Definition pixel : deviceData := DeviceData "8AXY0123" "device".
Definition pixel_offline : deviceData := DeviceData "8AXY0123" "offline".
Definition sdk_props : gmap string value :=
  {[ "ro.product.model" := VString "sdk_gphone_x86" ]}.
Definition pixel_props : gmap string value :=
  {[ "ro.product.model" := VString "Pixel 3" ]}.
(** The [Error] object a killed probe is reported with. *)
Definition killed : value := VObject 0.
Definition crlf : string :=
  String (ascii_of_nat 13) (String (ascii_of_nat 10) EmptyString).
(** What an emulator console answers to [avd name]. *)
Definition avd_answer : string :=
  String.append "Android Console: type 'help' for a list of commands"
    (String.append crlf
       (String.append "OK"
          (String.append crlf
             (String.append "Pixel_2_API_28"
                (String.append crlf (String.append "OK" crlf)))))).

(** The watcher a run ends with. *)
Definition state_of (c : completion) : watcher :=
  match c with
  | Normal w => w
  | Throw _ => started None
  end.

End Devices.

(** ** Heaps that look alike to the loader *)

Module Shape.
Import Js.

(** Two heaps on which every value has the same [default], the same
    [name] and the same answer to the [FlipperBasePlugin] test, all that
    the [try] block of [requirePlugin] reads before its loop, and on which
    the same properties are not writable. *)
Definition same_shape (h h' : heap) : Prop :=
  (forall v,
      get_prop h v "default" = get_prop h' v "default"
      /\ get_prop h v "name" = get_prop h' v "name"
      /\ prototype_instanceof_FlipperBasePlugin h v
         = prototype_instanceof_FlipperBasePlugin h' v)
  /\ (forall r key, read_only h r key = read_only h' r key).

End Shape.

(** ** Listing devices and emulators *)

Module Listing.
Import Js Devices.

(** [Promise.all] over promises that end as given: it rejects when one of
    them rejects (with the first rejection in array order, the order in
    time not being modelled), stays pending when none rejects and one never
    settles, and resolves to the results in array order otherwise. *)
Fixpoint Promise_all {A : Type} (ps : list (settled A)) : settled (list A) :=
  match ps with
  | [] => Resolved []
  | p :: ps' =>
      match p, Promise_all ps' with
      | Rejected reason, _ => Rejected reason
      | _, Rejected reason => Rejected reason
      | NeverSettles, _ => NeverSettles
      | _, NeverSettles => NeverSettles
      | Resolved a, Resolved l => Resolved (a :: l)
      end
  end.

(** What the outside answers to one call of [createDevice]: how
    [getProperties] settles and what the probe hands to its callback. *)
Record answers : Type := Answers {
  properties_answer : settled (gmap string value);
  probe_error : value;
  probe_data : value;
}.

(** [getActiveAndroidDevices], given how [getAdbClient()] and
    [client.listDevices()] settle and the answers to the call of
    [createDevice] for each listed device. *)
Definition getActiveAndroidDevices (client : settled unit)
    (listDevices : settled (list deviceData)) (env : nat -> answers)
  : settled (list BaseDevice) :=
  match client with
  | Resolved _ =>
      match listDevices with
      | Resolved androidDevices =>
          Promise_all
            (imap
               (fun i device =>
                  createDevice device (properties_answer (env i))
                    (probe_error (env i)) (probe_data (env i)))
               androidDevices)
      | Rejected reason => Rejected reason
      | NeverSettles => NeverSettles
      end
  | Rejected reason => Rejected reason
  | NeverSettles => NeverSettles
  end.

Definition LF : ascii := ascii_of_nat 10.

(** [s.split('\n')]: the pieces between line feeds, at least one. *)
Fixpoint split_newline (s : string) : list string :=
  match s with
  | EmptyString => [EmptyString]
  | String c s' =>
      if decide (c = LF) then EmptyString :: split_newline s'
      else
        match split_newline s' with
        | piece :: pieces => String c piece :: pieces
        | [] => [String c EmptyString]
        end
  end.

(** [pieces.filter(Boolean)] on strings: the non-empty ones. *)
Definition nonempty_pieces (pieces : list string) : list string :=
  List.filter (fun piece => negb (String.eqb piece "")) pieces.

(** The callback of the [-list-avds] command in [watchAndroidDevices],
    applied to [(error, data)] with [data] a string or [null]: the payload
    of the [REGISTER_ANDROID_EMULATORS] action it dispatches, or what it
    hands to [console.error] when it dispatches nothing. *)
Definition list_avds_callback (error : value) (data : option string)
  : value + list string :=
  match data with
  | Some s =>
      if negb (nullish error)
      then inl (or error (VString "Failed to list AVDs"))
      else inr (nonempty_pieces (split_newline s))
  | None => inl (or error (VString "Failed to list AVDs"))
  end.

(** The names, each followed by a line feed, as the command prints them. *)
Fixpoint unlines (names : list string) : string :=
  match names with
  | [] => EmptyString
  | name :: names' =>
      String.append name (String LF (unlines names'))
  end.

(** The string has no line feed. *)
Fixpoint no_line_feed (s : string) : bool :=
  match s with
  | EmptyString => true
  | String c s' => negb (bool_decide (c = LF)) && no_line_feed s'
  end.


End Listing.

(** ** Where the descriptors come from *)

Module Manifest.
Import Js Plugins.

(** [{...plugin, out: v}]: the properties of [plugin] in their order, with
    [out] set to [v] where it stands, or added at the end. *)
Fixpoint with_out (plugin : PluginDefinition) (v : value)
  : PluginDefinition :=
  match plugin with
  | [] => [("out", v)]
  | (k, x) :: plugin' =>
      if decide (k = "out") then (k, v) :: plugin'
      else (k, x) :: with_out plugin' v
  end.

(** What [path.join] throws when an argument is not a string. *)
Inductive TypeError : Type :=
| PathMustBeString (argument : value).

Section Sources.

(** [path.join] on two strings *)
Variable path_join : string -> string -> string.

(** The callback of [bundledPlugins.map]: it throws when [plugin.out] is
    not a string. *)
Definition bundle (pluginPath : string) (plugin : PluginDefinition)
  : TypeError + PluginDefinition :=
  match get plugin "out" with
  | VString out => inr (with_out plugin (VString (path_join pluginPath out)))
  | v => inl (PathMustBeString v)
  end.

(** [Array.prototype.map] with a callback that may throw. *)
Fixpoint map_throwing {A B E : Type} (f : A -> E + B) (l : list A)
  : E + list B :=
  match l with
  | [] => inr []
  | x :: l' =>
      match f x with
      | inl e => inl e
      | inr y =>
          match map_throwing f l' with
          | inl e => inl e
          | inr ys => inr (y :: ys)
          end
      end
  end.

(** [getBundledPlugins], given [isProduction()], the plugin path (what
    [process.env.BUNDLED_PLUGIN_PATH || path.join(__dirname,
    'defaultPlugins')] gives), and the array [electronRequire] reads from
    [index.json] ([None] when it throws). *)
Definition getBundledPlugins (isProduction : bool) (pluginPath : string)
    (index_json : option (list PluginDefinition))
  : TypeError + list PluginDefinition :=
  if negb isProduction then inr []
  else
    let bundledPlugins :=
      match index_json with
      | Some plugins => plugins
      | None => []
      end in
    map_throwing (bundle pluginPath) bundledPlugins.

End Sources.

(** *** Sample inputs *)

(** [path.join] on two paths that need no normalising. *)
Definition join_plain (a b : string) : string :=
  String.append a (String.append "/" b).
Definition descriptor_logs : PluginDefinition :=
  [("name", VString "logs"); ("out", VString "logs/index.js");
   ("title", VString "Logs")].

End Manifest.

(** ** The menu bar *)

Module MenuBar.

Record KeyboardAction : Type := Action {
  action : string;
  label : string;
  accelerator : option string;
  topLevelMenu : string;
}.

#[global] Instance KeyboardAction_eq_dec : EqDecision KeyboardAction.
Proof. solve_decision. Defined.

Definition defaultKeyboardActions : list KeyboardAction :=
  [Action "clear" "Clear" (Some "CmdOrCtrl+K") "View";
   Action "goToBottom" "Go To Bottom" (Some "CmdOrCtrl+B") "View";
   Action "createPaste" "Create Paste" None "Edit"].

(** An element of a plugin's [keyboardActions]: the name of a default
    action, or an action object.  [ref] stands for the identity of the
    object: the same object has the same [ref] and the same fields. *)
Inductive entry : Type :=
| DefaultName (name : string)
| Custom (ref : nat) (a : KeyboardAction).

(** A member of [registeredActions]: [undefined] for a name that is no
    default action, the object of the table of defaults, or a plugin's own
    object. *)
Inductive registered : Type :=
| Unknown
| Default (a : KeyboardAction)
| Own (ref : nat) (a : KeyboardAction).

#[global] Instance registered_eq_dec : EqDecision registered.
Proof. solve_decision. Defined.

(** [defaultKeyboardActions.find(a => a.action === name)] *)
Definition find_default (name : string) : option KeyboardAction :=
  List.find (fun a => bool_decide (action a = name)) defaultKeyboardActions.

(** The callback of the second [map] in [setupMenuBar]. *)
Definition resolve (e : entry) : registered :=
  match e with
  | DefaultName name =>
      match find_default name with
      | Some a => Default a
      | None => Unknown
      end
  | Custom ref a => Own ref a
  end.

(** [new Set(array)]: the members in the order of their first
    occurrence. *)
Fixpoint Set_from {A : Type} `{EqDecision A} (l : list A) : list A :=
  match l with
  | [] => []
  | x :: l' =>
      x :: List.filter (fun y => negb (bool_decide (y = x))) (Set_from l')
  end.

(** [registeredActions], from the [keyboardActions] of the plugins
    ([None] for a plugin without any). *)
Definition registeredActions (plugins : list (option (list entry)))
  : list registered :=
  Set_from
    (map resolve
       (concat (map (fun keyboardActions =>
                       match keyboardActions with
                       | Some actions => actions
                       | None => []
                       end) plugins))).

(** An item of a submenu: one of the template, known by its label (empty
    for a separator), or one pushed by [appendMenuItem], disabled, whose
    click hands [action] to the action handler. *)
Inductive item : Type :=
| TemplateItem (label : string)
| ActionItem (label : string) (accelerator : option string)
    (action : string) (enabled : bool).

Record menu : Type := Menu {
  menu_label : string;
  submenu : option (list item);
}.

(** [appendMenuItem(template, actionHandler, item)] *)
Fixpoint appendMenuItem (template : list menu) (keyboardAction : KeyboardAction)
  : list menu :=
  match template with
  | [] => []
  | m :: rest =>
      if decide (menu_label m = topLevelMenu keyboardAction) then
        match submenu m with
        | Some items =>
            Menu (menu_label m)
              (Some (items
                     ++ [ActionItem (label keyboardAction)
                           (accelerator keyboardAction)
                           (action keyboardAction) false]))
            :: rest
        | None => m :: rest
        end
      else m :: appendMenuItem rest keyboardAction
  end.

(** The action behind a member, [None] for [undefined]. *)
Definition action_of (r : registered) : option KeyboardAction :=
  match r with
  | Unknown => None
  | Default a | Own _ a => Some a
  end.

(** The first [forEach] of [setupMenuBar]: the template handed to
    [Menu.buildFromTemplate]. *)
Definition add_actions (template : list menu) (actions : list registered)
  : list menu :=
  foldl
    (fun template keyboardAction =>
       match action_of keyboardAction with
       | Some a => appendMenuItem template a
       | None => template
       end)
    template actions.

(** [setupMenuBar] up to [Menu.buildFromTemplate], on the template of
    [getTemplate]. *)
Definition setupMenuBar_template (plugins : list (option (list entry)))
    (template : list menu) : list menu :=
  add_actions template (registeredActions plugins).

(** A sample template: the five menus of [getTemplate] on a platform
    other than macOS, each with some of its items. *)
Definition bare_template : list menu :=
  [Menu "File" (Some [TemplateItem "Open File..."; TemplateItem "Export"]);
   Menu "Edit" (Some [TemplateItem "Undo"; TemplateItem "Redo"]);
   Menu "View" (Some [TemplateItem "Reload"]);
   Menu "Window" (Some [TemplateItem "Minimize"; TemplateItem "Close"]);
   Menu "Help" (Some [TemplateItem "Getting started"])].

(** The [keyboardActions] of three plugins; the second has none. *)
Definition sample_plugins : list (option (list entry)) :=
  [Some [DefaultName "clear"; DefaultName "createPaste"];
   None;
   Some [DefaultName "clear";
         Custom 0 (Action "pin" "Pin" None "Window")]].

(** The number of items of the submenus of a template. *)
Definition item_count (template : list menu) : nat :=
  sum_list (map (fun m => match submenu m with
                          | Some items => length items
                          | None => 0
                          end) template).

(** What [appendMenuItem] makes of a menu. *)
Definition grown_by (a : list KeyboardAction) (m m' : menu) : Prop :=
  menu_label m' = menu_label m
  /\ match submenu m, submenu m' with
     | Some items, Some items' =>
         exists added,
           items' = items ++ added
           /\ Forall
                (fun i => exists k,
                     k ∈ a /\ topLevelMenu k = menu_label m
                     /\ i = ActionItem (label k) (accelerator k) (action k)
                              false)
                added
     | None, None => True
     | _, _ => False
     end.

(** A menu with this label and a submenu is in the template. *)
Definition has_menu (L : string) (template : list menu) : Prop :=
  exists m items,
    m ∈ template /\ menu_label m = L /\ submenu m = Some items.

(** A menu with this label whose submenu holds the item is in the
    template. *)
Definition has_item (L : string) (i : item) (template : list menu) : Prop :=
  exists m items,
    m ∈ template /\ menu_label m = L /\ submenu m = Some items /\ i ∈ items.

End MenuBar.

(** * Properties of the plugin loader *)

Module PluginsFacts.
Import Js Plugins.

Section Loader.

Context (config_disabledPlugins : option (gset string))
        (GK_get : value -> bool)
        (reqFn : value -> message + value).

Local Abbreviation checkDisabled := (checkDisabled config_disabledPlugins).
Local Abbreviation checkGK := (checkGK GK_get).
Local Abbreviation requirePlugin := (requirePlugin reqFn).
Local Abbreviation try_require := (try_require reqFn).
Local Abbreviation initialPlugins :=
  (initialPlugins config_disabledPlugins GK_get reqFn).
Local Abbreviation is_disabled := (is_disabled config_disabledPlugins).
Local Abbreviation is_gatekept := (is_gatekept GK_get).
Local Abbreviation classify := (classify config_disabledPlugins GK_get reqFn).
Local Abbreviation passes_gk := (passes_gk GK_get).
Local Abbreviation outcome_sound :=
  (outcome_sound config_disabledPlugins GK_get reqFn).

Lemma passes_gk_not_gatekept d : passes_gk d = negb (is_gatekept d).
Proof.
  unfold Plugins.passes_gk, Plugins.is_gatekept.
  destruct (has_gatekeeper d), (GK_get _); reflexivity.
Qed.

(** The first filter keeps the descriptors that are not disabled and
    pushes the others, in order. *)
Lemma filter_st_checkDisabled l acc :
  filter_st checkDisabled acc l =
  (List.filter (fun d => negb (is_disabled d)) l,
   acc ++ List.filter is_disabled l).
Proof.
  revert acc. induction l as [|d l IH]; intros acc; simpl.
  - by rewrite app_nil_r.
  - unfold Plugins.checkDisabled at 1. fold (is_disabled d).
    change (match config_disabledPlugins with Some s => s | None => ∅ end)
      with (default ∅ config_disabledPlugins).
    fold (is_disabled d).
    destruct (is_disabled d) eqn:Hd; simpl; rewrite IH.
    + by rewrite <- app_assoc.
    + done.
Qed.

(** The second filter keeps the descriptors the gatekeeper lets through,
    pushes the others, and asks the gatekeeper once for each descriptor
    that names a key. *)
Lemma filter_st_checkGK l st :
  filter_st checkGK st l =
  (List.filter passes_gk l,
   GkState (gatekeepedPlugins st ++ List.filter is_gatekept l)
           (gkQueries st
            ++ map (fun d => get d "gatekeeper")
                 (List.filter has_gatekeeper l))).
Proof.
  revert st. induction l as [|d l IH]; intros [gs qs]; simpl.
  - by rewrite !app_nil_r.
  - unfold Plugins.checkGK at 1.
    unfold Plugins.passes_gk, Plugins.is_gatekept, has_gatekeeper in *.
    destruct (truthy (get d "gatekeeper")) eqn:Hk; simpl.
    + destruct (GK_get (get d "gatekeeper")) eqn:Hg; simpl;
        rewrite IH; simpl; by rewrite <- !app_assoc.
    + by rewrite IH.
Qed.

(** A load that succeeds yields a class on the heap. *)
Lemma try_require_inr d h h' p :
  try_require d h = (h', inr p) ->
  exists r, p = VObject r /\ prototype_instanceof_FlipperBasePlugin h p = true.
Proof.
  unfold Plugins.try_require.
  destruct (reqFn (get d "out")) as [e|m]; [done|].
  destruct (nullish m); [done|].
  set (plugin := if truthy (get_prop h m "default") then _ else m).
  destruct (prototype_instanceof_FlipperBasePlugin h plugin) eqn:Hp;
    simpl; [|done].
  destruct plugin as [| | | | | |r] eqn:Hplugin; try done.
  destruct (backfill d r (keys d) h) as [h1 [e|]]; [done|].
  intros [= <- <-]. by exists r.
Qed.

(** Every outcome lands in exactly one of the four collections. *)
Lemma outcome_count (os : list outcome) :
  length os =
  length (omap accepted_of os) + length (omap disabled_of os)
  + length (omap gatekept_of os) + length (omap failed_of os).
Proof.
  induction os as [|[]]; csimpl; lia.
Qed.

Lemma classify_descriptors h l : map descriptor_of (classify h l).1 = l.
Proof.
  revert h. induction l as [|d l IH]; intros h; simpl; [done|].
  destruct (is_disabled d).
  { specialize (IH h). destruct (classify h l). simpl in *. by f_equal. }
  destruct (is_gatekept d).
  { specialize (IH h). destruct (classify h l). simpl in *. by f_equal. }
  destruct (try_require d h) as [h1 [e|p]];
    specialize (IH h1); destruct (classify h1 l); simpl in *; by f_equal.
Qed.

Lemma classify_disabled h l :
  omap disabled_of (classify h l).1 = List.filter is_disabled l.
Proof.
  revert h. induction l as [|d l IH]; intros h; simpl; [done|].
  destruct (is_disabled d).
  { specialize (IH h). destruct (classify h l). simpl in *. by f_equal. }
  destruct (is_gatekept d).
  { specialize (IH h). by destruct (classify h l). }
  destruct (try_require d h) as [h1 [e|p]];
    specialize (IH h1); by destruct (classify h1 l).
Qed.

Lemma classify_gatekept h l :
  omap gatekept_of (classify h l).1 =
  List.filter is_gatekept (List.filter (fun d => negb (is_disabled d)) l).
Proof.
  revert h. induction l as [|d l IH]; intros h; simpl; [done|].
  destruct (is_disabled d); simpl.
  { specialize (IH h). by destruct (classify h l). }
  destruct (is_gatekept d).
  { specialize (IH h). destruct (classify h l). simpl in *. by f_equal. }
  destruct (try_require d h) as [h1 [e|p]];
    specialize (IH h1); by destruct (classify h1 l).
Qed.

(** The [map] over the descriptors that passed both filters loads them
    in order, on the heap the earlier loads left. *)
Lemma map_st_requirePlugin l h acc :
  let passed :=
    List.filter passes_gk (List.filter (fun d => negb (is_disabled d)) l) in
  let '(loaded, ld) := map_st requirePlugin (LoadState acc h) passed in
  filter_Boolean loaded = omap accepted_of (classify h l).1
  /\ failedPlugins ld = acc ++ omap failed_of (classify h l).1
  /\ classes ld = (classify h l).2.
Proof.
  revert h acc. induction l as [|d l IH]; intros h acc; simpl.
  { by rewrite app_nil_r. }
  destruct (is_disabled d); simpl.
  { specialize (IH h acc). simpl in IH. by destruct (classify h l). }
  rewrite passes_gk_not_gatekept.
  destruct (is_gatekept d); simpl.
  { specialize (IH h acc). simpl in IH. by destruct (classify h l). }
  unfold Plugins.requirePlugin at 1. simpl.
  destruct (try_require d h) as [h1 [e|p]] eqn:Ht.
  - specialize (IH h1 (acc ++ [(d, e)])). simpl in IH.
    destruct (map_st _ _ _) as [loaded ld].
    destruct (classify h1 l) as [os h2]. simpl in *.
    destruct IH as (-> & -> & ->). by rewrite <- app_assoc.
  - specialize (IH h1 acc). simpl in IH.
    destruct (map_st _ _ _) as [loaded ld].
    destruct (classify h1 l) as [os h2]. simpl in *.
    destruct IH as (IH1 & -> & ->).
    apply try_require_inr in Ht as (r & -> & _).
    unfold filter_Boolean in *. simpl. by rewrite IH1.
Qed.

(** **** The backfill loop *)

Lemma get_set_prop h r key v r' k :
  get_prop (set_prop h r key v) (VObject r') k =
  if decide (r = r' /\ key = k /\ is_Some (h !! r))
  then v else get_prop h (VObject r') k.
Proof.
  unfold get_prop, set_prop. destruct (decide (r = r')) as [<-|Hr].
  - rewrite lookup_alter_eq. destruct (h !! r) as [o|] eqn:Ho; simpl.
    + destruct (decide (key = k)) as [<-|Hk].
      * rewrite lookup_insert_eq. simpl.
        rewrite decide_True; [done|]. by eauto.
      * rewrite lookup_insert_ne by done.
        rewrite decide_False; [done|]. by intros (_ & ? & _).
    + rewrite decide_False; [done|]. intros (_ & _ & []). done.
  - rewrite lookup_alter_ne by done.
    rewrite decide_False; [done|]. by intros (? & _).
Qed.

Lemma set_prop_is_Some h r key v r' :
  is_Some (set_prop h r key v !! r') <-> is_Some (h !! r').
Proof. unfold set_prop. apply lookup_alter_is_Some. Qed.

Lemma set_prop_instanceof h r key v p :
  prototype_instanceof_FlipperBasePlugin (set_prop h r key v) p =
  prototype_instanceof_FlipperBasePlugin h p.
Proof.
  destruct p as [| | | | | |r']; try done.
  unfold set_prop, prototype_instanceof_FlipperBasePlugin.
  destruct (decide (r = r')) as [<-|Hr].
  - rewrite lookup_alter_eq. by destruct (h !! r).
  - by rewrite lookup_alter_ne.
Qed.

Lemma or_idem a b : or (or a b) b = or a b.
Proof. unfold or. destruct (truthy a) eqn:Ha; [by rewrite Ha|]. by destruct (truthy b). Qed.

Lemma or_truthy_l a b : truthy a = true -> or a b = a.
Proof. unfold or. by intros ->. Qed.

(** A key of the descriptor makes the callback write one property, as
    [old || fromDescriptor], unless the key is [id]. *)
Lemma backfill_key_inr d r h key h1 :
  backfill_key d r h key = inr h1 ->
  key <> "id" /\
  h1 = set_prop h r (if decide (key = "name") then "id" else key)
         (or (get_prop h (VObject r)
                (if decide (key = "name") then "id" else key))
             (get d key)).
Proof.
  unfold backfill_key, assign. destruct (decide (key = "name")) as [->|Hn].
  - destruct (read_only h r "id"); [done|]. intros [= <-]. done.
  - destruct (decide (key = "id")); [done|].
    destruct (read_only h r key); [done|]. intros [= <-]. done.
Qed.

(** The loop throws when [id] is among the keys. *)
Lemma backfill_id d r ks h :
  "id" ∈ ks -> exists h' e, backfill d r ks h = (h', Some e).
Proof.
  revert h. induction ks as [|key ks IH]; intros h Hin.
  - by apply elem_of_nil in Hin.
  - simpl. destruct (backfill_key d r h key) as [e|h1] eqn:Hk.
    + by eauto.
    + apply backfill_key_inr in Hk as [Hne _].
      apply elem_of_cons in Hin as [Heq|Hin]; [done|]. by apply IH.
Qed.

(** The loop never writes over a truthy property, whether or not it
    runs to its end. *)
Lemma backfill_keeps_truthy d r ks h h' res r' k :
  backfill d r ks h = (h', res) ->
  truthy (get_prop h (VObject r') k) = true ->
  get_prop h' (VObject r') k = get_prop h (VObject r') k.
Proof.
  revert h. induction ks as [|key ks IH]; intros h; simpl.
  - by intros [= <- <-].
  - destruct (backfill_key d r h key) as [e|h1] eqn:Hk.
    + by intros [= <- <-].
    + intros Hb Ht. apply backfill_key_inr in Hk as [_ ->].
      assert (get_prop
                (set_prop h r (if decide (key = "name") then "id" else key)
                   (or (get_prop h (VObject r)
                          (if decide (key = "name") then "id" else key))
                       (get d key)))
                (VObject r') k = get_prop h (VObject r') k) as Heq.
      { rewrite get_set_prop.
        destruct (decide (_ /\ _)) as [Hc|]; [|done].
        destruct Hc as (<- & <- & _). by apply or_truthy_l. }
      rewrite <- Heq. apply IH; [done|]. by rewrite Heq.
Qed.

Lemma backfill_is_Some d r ks h h' res r' :
  backfill d r ks h = (h', res) ->
  is_Some (h' !! r') <-> is_Some (h !! r').
Proof.
  revert h. induction ks as [|key ks IH]; intros h; simpl.
  - by intros [= <- <-].
  - destruct (backfill_key d r h key) as [e|h1] eqn:Hk.
    + by intros [= <- <-].
    + intros Hb. apply backfill_key_inr in Hk as [_ ->].
      rewrite (IH _ Hb). apply set_prop_is_Some.
Qed.

(** After a loop that ran to its end, a property named by a key of the
    descriptor other than [name] holds [old || fromDescriptor]. *)
Lemma backfill_field d r ks h h' k :
  backfill d r ks h = (h', None) ->
  is_Some (h !! r) ->
  k <> "name" -> k <> "id" ->
  get_prop h' (VObject r) k =
  if decide (k ∈ ks)
  then or (get_prop h (VObject r) k) (get d k)
  else get_prop h (VObject r) k.
Proof.
  intros Hb Hr Hn Hi. revert h Hb Hr.
  induction ks as [|key ks IH]; intros h; cbn [backfill].
  - intros [= <-] _. by rewrite decide_False by apply not_elem_of_nil.
  - destruct (backfill_key d r h key) as [e|h1] eqn:Hk; [done|].
    intros Hb Hr. apply backfill_key_inr in Hk as [Hki ->].
    rewrite (IH _ Hb) by (by apply set_prop_is_Some).
    rewrite get_set_prop.
    destruct (decide (key = k)) as [->|Hkk].
    + rewrite (decide_False (P := k = "name")) by done.
      destruct (decide (_ /\ _)) as [_|Hc]; [|by destruct Hc].
      destruct (decide (k ∈ ks)), (decide (k ∈ k :: ks)) as [|Hc];
        try (by rewrite ?or_idem); destruct Hc; by left.
    + destruct (decide (_ /\ _)) as [(_ & Hk' & _)|_].
      { destruct (decide (key = "name")); congruence. }
      destruct (decide (k ∈ ks)), (decide (k ∈ key :: ks)) as [Hc|Hc];
        try done.
      * destruct Hc. by right.
      * apply elem_of_cons in Hc as [?|?]; congruence.
Qed.


(** **** One load *)

(** A load that succeeds ran the backfill loop to its end on a class of
    the heap. *)
Lemma try_require_ok d h h' p :
  try_require d h = (h', inr p) ->
  exists r, p = VObject r /\ is_Some (h !! r)
            /\ backfill d r (keys d) h = (h', None).
Proof.
  unfold Plugins.try_require.
  destruct (reqFn (get d "out")) as [e|m]; [done|].
  destruct (nullish m); [done|].
  set (plugin := if truthy (get_prop h m "default") then _ else m).
  destruct (prototype_instanceof_FlipperBasePlugin h plugin) eqn:Hp;
    simpl; [|done].
  destruct plugin as [| | | | | |r] eqn:Hplugin; try done.
  destruct (backfill d r (keys d) h) as [h1 [e|]] eqn:Hb; [done|].
  intros [= <- <-]. exists r. split_and!; [done| |done].
  unfold prototype_instanceof_FlipperBasePlugin in Hp.
  by destruct (h !! r).
Qed.

(** No load, failed or not, writes over a truthy property. *)
Lemma try_require_keeps_truthy d h h' res r' k :
  try_require d h = (h', res) ->
  truthy (get_prop h (VObject r') k) = true ->
  get_prop h' (VObject r') k = get_prop h (VObject r') k.
Proof.
  unfold Plugins.try_require.
  destruct (reqFn (get d "out")) as [e|m]; [by intros [= <- <-]|].
  destruct (nullish m); [by intros [= <- <-]|].
  set (plugin := if truthy (get_prop h m "default") then _ else m).
  destruct (prototype_instanceof_FlipperBasePlugin h plugin);
    simpl; [|by intros [= <- <-]].
  destruct plugin as [| | | | | |r]; try by intros [= <- <-].
  destruct (backfill d r (keys d) h) as [h1 res1] eqn:Hb.
  intros Heq Ht.
  assert (h' = h1) as -> by (destruct res1; by injection Heq).
  by eapply backfill_keeps_truthy.
Qed.

(** A descriptor with the key [id] never loads. *)
Lemma try_require_id d h :
  "id" ∈ keys d -> exists h' e, try_require d h = (h', inl e).
Proof.
  intros Hid. unfold Plugins.try_require.
  destruct (reqFn (get d "out")) as [e|m]; [by eauto|].
  destruct (nullish m); [by eauto|].
  set (plugin := if truthy (get_prop h m "default") then _ else m).
  destruct (prototype_instanceof_FlipperBasePlugin h plugin);
    simpl; [|by eauto].
  destruct plugin as [| | | | | |r]; try by eauto.
  destruct (backfill_id d r (keys d) h Hid) as (h1 & e & ->). by eauto.
Qed.

(** **** The classification *)

Lemma classify_sound h l : Forall outcome_sound (classify h l).1.
Proof.
  revert h. induction l as [|d l IH]; intros h; simpl; [done|].
  destruct (is_disabled d) eqn:Hd.
  { specialize (IH h). destruct (classify h l). by constructor. }
  destruct (is_gatekept d) eqn:Hg.
  { specialize (IH h). destruct (classify h l). by constructor. }
  destruct (try_require d h) as [h1 [e|p]] eqn:Ht;
    specialize (IH h1); destruct (classify h1 l); constructor; simpl;
    by eauto.
Qed.

Lemma classify_keeps_truthy h l r' k :
  truthy (get_prop h (VObject r') k) = true ->
  get_prop (classify h l).2 (VObject r') k = get_prop h (VObject r') k.
Proof.
  revert h. induction l as [|d l IH]; intros h Ht; simpl; [done|].
  destruct (is_disabled d).
  { specialize (IH h Ht). by destruct (classify h l). }
  destruct (is_gatekept d).
  { specialize (IH h Ht). by destruct (classify h l). }
  destruct (try_require d h) as [h1 res] eqn:Hr.
  pose proof (try_require_keeps_truthy _ _ _ _ _ _ Hr Ht) as H1.
  assert (get_prop (classify h1 l).2 (VObject r') k
          = get_prop h (VObject r') k) as Hgoal.
  { rewrite <- H1. apply IH. by rewrite H1. }
  destruct res; by destruct (classify h1 l).
Qed.


(** The dispatched collections are the projections of the per-descriptor
    classification. *)
Lemma initialPlugins_classify bundled dynamic h :
  let os := (classify h (bundled ++ dynamic)).1 in
  initialPlugins bundled dynamic h =
  Admission (omap accepted_of os) (omap gatekept_of os)
    (omap disabled_of os) (omap failed_of os)
    (map (fun d => get d "gatekeeper")
       (List.filter has_gatekeeper
          (List.filter (fun d => negb (is_disabled d))
             (bundled ++ dynamic))))
    (classify h (bundled ++ dynamic)).2.
Proof.
  unfold Plugins.initialPlugins.
  rewrite filter_st_checkDisabled, filter_st_checkGK. simpl.
  pose proof (map_st_requirePlugin (bundled ++ dynamic) h []) as Hl.
  simpl in Hl. destruct (map_st _ _ _) as [loaded ld].
  destruct Hl as (-> & -> & ->).
  by rewrite classify_disabled, classify_gatekept.
Qed.


Lemma sum_of_collections bundled dynamic h :
  let r := initialPlugins bundled dynamic h in
  length (bundled ++ dynamic) =
  length (registerPlugins r) + length (addDisabledPlugins r)
  + length (addGatekeepedPlugins r) + length (addFailedPlugins r).
Proof.
  rewrite initialPlugins_classify. simpl.
  rewrite <- (classify_descriptors h (bundled ++ dynamic)) at 1.
  rewrite length_map, (outcome_count (classify h (bundled ++ dynamic)).1).
  lia.
Qed.

(** C1. For every list of descriptors (the bundled ones followed by the
    dynamic ones) the pipeline decides one outcome per descriptor, in
    order: the four dispatched collections (registered plugins,
    disabled, gatekept, failed) are the four projections of that list
    of outcomes, so they partition the input: nothing is lost, nothing
    is in two collections, and the sizes add up. *)
Theorem admission_partition bundled dynamic h :
  let r := initialPlugins bundled dynamic h in
  let os := (classify h (bundled ++ dynamic)).1 in
  map descriptor_of os = bundled ++ dynamic
  /\ registerPlugins r = omap accepted_of os
  /\ addDisabledPlugins r = omap disabled_of os
  /\ addGatekeepedPlugins r = omap gatekept_of os
  /\ addFailedPlugins r = omap failed_of os
  /\ length (bundled ++ dynamic) =
     length (registerPlugins r) + length (addDisabledPlugins r)
     + length (addGatekeepedPlugins r) + length (addFailedPlugins r).
Proof.
  intros r os. split; [apply classify_descriptors|].
  pose proof (sum_of_collections bundled dynamic h) as Hsum.
  subst r os. simpl in Hsum. rewrite initialPlugins_classify in *.
  simpl in *. done.
Qed.

(** C3. A descriptor whose name is in the disabled set and whose
    gatekeeper key is reported inactive is dispatched as disabled, and
    neither as gatekept nor as failed nor as a registered plugin; the
    gatekeeper is asked about the keys of the descriptors that are not
    disabled, in order, and about no other. *)
Theorem disabled_precedes_gatekeeper bundled dynamic h d :
  d ∈ bundled ++ dynamic ->
  is_disabled d = true ->
  is_gatekept d = true ->
  let r := initialPlugins bundled dynamic h in
  d ∈ addDisabledPlugins r
  /\ (d ∉ addGatekeepedPlugins r)
  /\ (d ∉ (addFailedPlugins r).*1)
  /\ (forall p, Accepted d p ∉ (classify h (bundled ++ dynamic)).1)
  /\ queriedGatekeepers r =
     map (fun d => get d "gatekeeper")
       (List.filter has_gatekeeper
          (List.filter (fun d => negb (is_disabled d))
             (bundled ++ dynamic))).
Proof.
  intros Hin Hd Hg r. subst r. rewrite initialPlugins_classify. simpl.
  pose proof (classify_sound h (bundled ++ dynamic)) as Hs.
  rewrite Forall_forall in Hs.
  split_and!; [| | | |done].
  - rewrite classify_disabled. apply list_elem_of_In, filter_In.
    split; [by apply list_elem_of_In|done].
  - intros (o & Ho & Heq)%list_elem_of_omap.
    destruct o; try done. injection Heq as ->.
    apply Hs in Ho as [Hnd _]. congruence.
  - intros ([d' e] & -> & (o & Ho & Heq)%list_elem_of_omap)%list_elem_of_fmap.
    destruct o; try done. injection Heq as -> ->.
    apply Hs in Ho as [Hnd _]. simpl in *. congruence.
  - intros p Ho. apply Hs in Ho as [Hnd _]. congruence.
Qed.

(** C4, as the code has it. A descriptor that sets [id] is never
    admitted; when it passes the disable and the gatekeeper check it is
    dispatched as failed with a message; and the pipeline goes on: every
    descriptor of the input still gets its outcome. *)
Theorem id_descriptor_fails bundled dynamic h d :
  d ∈ bundled ++ dynamic ->
  "id" ∈ keys d ->
  let r := initialPlugins bundled dynamic h in
  let os := (classify h (bundled ++ dynamic)).1 in
  registerPlugins r = omap accepted_of os
  /\ (forall p, Accepted d p ∉ os)
  /\ (is_disabled d = false -> is_gatekept d = false ->
      exists e, (d, e) ∈ addFailedPlugins r)
  /\ map descriptor_of os = bundled ++ dynamic
  /\ length (bundled ++ dynamic) =
     length (registerPlugins r) + length (addDisabledPlugins r)
     + length (addGatekeepedPlugins r) + length (addFailedPlugins r).
Proof.
  intros Hin Hid r os.
  pose proof (sum_of_collections bundled dynamic h) as Hsum.
  pose proof (classify_descriptors h (bundled ++ dynamic)) as Hdesc.
  pose proof (classify_sound h (bundled ++ dynamic)) as Hs.
  rewrite Forall_forall in Hs.
  assert (forall p, Accepted d p ∉ os) as Hnever.
  { intros p Ho. apply Hs in Ho as (_ & _ & h0 & h1 & Hr).
    destruct (try_require_id d h0 Hid) as (h' & e & Hr'). congruence. }
  subst r os. simpl in Hsum. rewrite initialPlugins_classify in *.
  simpl in *. split_and!; try done.
  intros Hd Hg. rewrite <- Hdesc in Hin.
  apply list_elem_of_fmap in Hin as (o & -> & Ho).
  pose proof (Hs _ Ho) as Hsound.
  destruct o as [d p|d|d|d e]; simpl in *.
  - by destruct (Hnever p).
  - congruence.
  - destruct Hsound. congruence.
  - exists e. apply list_elem_of_omap. by exists (Failed d e).
Qed.

(** C5, as the code has it. After a successful load, a property named by
    a key of the descriptor other than [name] and [id] holds the value
    the class had when that value was truthy, and the descriptor's value
    otherwise: a truthy value of the class is never written over, a
    falsy one (absent, [undefined], [null], [false], [0], [NaN] or the
    empty string) is. *)
Theorem backfill_fills_falsy_fields d h h' p key :
  try_require d h = (h', inr p) ->
  key ∈ keys d ->
  key <> "name" ->
  key <> "id" ->
  get_prop h' p key =
  if truthy (get_prop h p key) then get_prop h p key else get d key.
Proof.
  intros Hr Hk Hn Hi.
  apply try_require_ok in Hr as (r & -> & Hsome & Hb).
  rewrite (backfill_field _ _ _ _ _ _ Hb Hsome Hn Hi).
  by rewrite decide_True.
Qed.




End Loader.

(** *** Concrete runs *)

(** The scenario of the specification: [A] is admitted, [B] is gatekept,
    [C] is disabled. *)
Example scenario_A_B_C :
  let r := initialPlugins config_C GK_off the_class
             [descriptor_A; descriptor_B] [descriptor_C] (one_class ∅) in
  registerPlugins r = [VObject 0]
  /\ addGatekeepedPlugins r = [descriptor_B]
  /\ addDisabledPlugins r = [descriptor_C]
  /\ addFailedPlugins r = [].
Proof. vm_compute. done. Qed.

Lemma disabled_precedes_gatekeeper_witness :
  let r := initialPlugins config_C GK_off the_class
             [descriptor_A] [descriptor_C_gk] (one_class ∅) in
  descriptor_C_gk ∈ [descriptor_A] ++ [descriptor_C_gk]
  /\ is_disabled config_C descriptor_C_gk = true
  /\ is_gatekept GK_off descriptor_C_gk = true
  /\ descriptor_C_gk ∈ addDisabledPlugins r
  /\ (descriptor_C_gk ∉ addGatekeepedPlugins r)
  /\ queriedGatekeepers r = [].
Proof.
  assert (descriptor_C_gk ∈ [descriptor_A] ++ [descriptor_C_gk]) as H1
    by (right; left).
  assert (is_disabled config_C descriptor_C_gk = true) as H2
    by (vm_compute; reflexivity).
  assert (is_gatekept GK_off descriptor_C_gk = true) as H3
    by (vm_compute; reflexivity).
  destruct (disabled_precedes_gatekeeper config_C GK_off the_class
              [descriptor_A] [descriptor_C_gk] (one_class ∅)
              descriptor_C_gk H1 H2 H3) as (Ha & Hb & _ & _ & Hq).
  split_and!; try done.
Defined.

(** C4 as stated fails: a descriptor that sets [id] and whose name is
    disabled is dispatched as disabled, and nothing is dispatched as
    failed. *)
Lemma id_descriptor_disabled_not_failed :
  let r := initialPlugins config_C GK_on the_class
             [descriptor_C_id] [] (one_class ∅) in
  "id" ∈ keys descriptor_C_id
  /\ addFailedPlugins r = []
  /\ addDisabledPlugins r = [descriptor_C_id]
  /\ registerPlugins r = [].
Proof. split; [by left|]. vm_compute. done. Qed.

Lemma id_descriptor_fails_witness :
  let r := initialPlugins config_C GK_on the_class
             [descriptor_A_id] [descriptor_A] (one_class ∅) in
  descriptor_A_id ∈ [descriptor_A_id] ++ [descriptor_A]
  /\ "id" ∈ keys descriptor_A_id
  /\ (exists e, (descriptor_A_id, e) ∈ addFailedPlugins r)
  /\ length ([descriptor_A_id] ++ [descriptor_A]) =
     length (registerPlugins r) + length (addDisabledPlugins r)
     + length (addGatekeepedPlugins r) + length (addFailedPlugins r).
Proof.
  assert (descriptor_A_id ∈ [descriptor_A_id] ++ [descriptor_A]) as H1
    by left.
  assert ("id" ∈ keys descriptor_A_id) as H2 by (right; left).
  destruct (id_descriptor_fails config_C GK_on the_class
              [descriptor_A_id] [descriptor_A] (one_class ∅)
              descriptor_A_id H1 H2) as (_ & _ & Hf & _ & Hlen).
  split_and!; try done.
  apply Hf; vm_compute; reflexivity.
Defined.

(** C5 as stated fails: the class declares the empty string as its
    [title], and the load writes the descriptor's title over it. *)
Lemma declared_empty_title_overridden :
  let h := one_class {[ "title" := VString "" ]} in
  let loaded := try_require the_class descriptor_titled h in
  props <$> (h !! 0) = Some {[ "title" := VString "" ]}
  /\ loaded.2 = inr (VObject 0)
  /\ get_prop loaded.1 (VObject 0) "title" = VString "X".
Proof. vm_compute. done. Qed.

Lemma backfill_fills_falsy_fields_witness :
  let h := one_class {[ "icon" := VString "bug" ]} in
  let loaded := try_require the_class descriptor_titled_icon h in
  get_prop loaded.1 (VObject 0) "title" = VString "X"
  /\ get_prop loaded.1 (VObject 0) "icon" = VString "bug".
Proof.
  intros h loaded.
  assert (try_require the_class descriptor_titled_icon h
          = (loaded.1, inr (VObject 0))) as Hl
    by (vm_compute; reflexivity).
  split.
  - rewrite (backfill_fills_falsy_fields the_class
               descriptor_titled_icon h loaded.1 (VObject 0) "title" Hl);
      [vm_compute; reflexivity|right; left|done|done].
  - rewrite (backfill_fills_falsy_fields the_class
               descriptor_titled_icon h loaded.1 (VObject 0) "icon" Hl);
      [vm_compute; reflexivity|right; right; left|done|done].
Defined.



End PluginsFacts.

(** * Properties of the Android device watcher *)

Module DevicesFacts.
Import Js Devices.

(** ** The registry *)

(** The registry holds one handle per serial. *)
Lemma serial_unique (l : list BaseDevice) i j x y :
  NoDup (serial <$> l) ->
  l !! i = Some x -> l !! j = Some y -> serial x = serial y -> i = j.
Proof.
  intros Hnd Hi Hj Heq.
  apply (NoDup_lookup (serial <$> l) i j (serial x) Hnd).
  - by rewrite list_lookup_fmap, Hi.
  - by rewrite list_lookup_fmap, Hj, Heq.
Qed.

Lemma serial_unique_elem (l : list BaseDevice) x y :
  NoDup (serial <$> l) -> x ∈ l -> y ∈ l -> serial x = serial y -> x = y.
Proof.
  intros Hnd [i Hi]%list_elem_of_lookup [j Hj]%list_elem_of_lookup Heq.
  assert (i = j) as -> by eauto using serial_unique. congruence.
Qed.

Lemma elem_of_UNREGISTER_DEVICES payload l d :
  d ∈ UNREGISTER_DEVICES payload l <-> d ∈ l /\ serial d ∉ payload.
Proof.
  unfold UNREGISTER_DEVICES. rewrite !list_elem_of_In, filter_In.
  rewrite negb_true_iff, bool_decide_eq_false. done.
Qed.

Lemma UNREGISTER_DEVICES_NoDup payload l :
  NoDup (serial <$> l) -> NoDup (serial <$> UNREGISTER_DEVICES payload l).
Proof.
  unfold UNREGISTER_DEVICES. induction l as [|d l IH]; simpl; [done|].
  rewrite NoDup_cons. intros [Hd Hl].
  destruct (negb _); [|by apply IH].
  simpl. rewrite NoDup_cons. split; [|by apply IH].
  intros (x & Hx & Hin)%list_elem_of_fmap. apply Hd.
  apply list_elem_of_fmap. exists x. split; [done|].
  apply list_elem_of_In in Hin. apply filter_In in Hin as [Hin _].
  by apply list_elem_of_In.
Qed.

(** Registering keeps the serials where they are, or adds a new one at
    the end. *)
Lemma REGISTER_DEVICE_serials p l :
  serial <$> REGISTER_DEVICE p l =
  if decide (serial p ∈ serial <$> l)
  then serial <$> l else (serial <$> l) ++ [serial p].
Proof.
  induction l as [|d l IH]; cbn [REGISTER_DEVICE].
  - rewrite decide_False by apply not_elem_of_nil. done.
  - destruct (decide (serial d = serial p)) as [Heq|Hne];
      rewrite !fmap_cons.
    + rewrite decide_True by (rewrite Heq; left). by rewrite Heq.
    + rewrite IH. destruct (decide (serial p ∈ serial <$> l)) as [Hin|Hin].
      * rewrite decide_True by (by right). done.
      * rewrite decide_False; [done|].
        intros [?|?]%elem_of_cons; congruence.
Qed.

Lemma REGISTER_DEVICE_NoDup p l :
  NoDup (serial <$> l) -> NoDup (serial <$> REGISTER_DEVICE p l).
Proof.
  intros Hnd. rewrite REGISTER_DEVICE_serials. case_decide; [done|].
  apply NoDup_app. split_and!; [done| |apply NoDup_singleton].
  intros x Hx ->%list_elem_of_singleton. done.
Qed.

Lemma REGISTER_DEVICE_elem p l : p ∈ REGISTER_DEVICE p l.
Proof.
  induction l as [|d l IH]; simpl; [by left|].
  case_decide; [by left|by right].
Qed.

Lemma REGISTER_DEVICE_fresh p l :
  serial p ∉ serial <$> l -> REGISTER_DEVICE p l = l ++ [p].
Proof.
  induction l as [|d l IH]; simpl; [done|].
  intros Hnin. rewrite decide_False.
  - rewrite IH; [done|]. intros Hin. apply Hnin. by right.
  - intros Heq. apply Hnin. rewrite Heq. by left.
Qed.

Lemma foldl_REGISTER_DEVICE_NoDup ps l :
  NoDup (serial <$> l) ->
  NoDup (serial <$> foldl (fun ds payload => REGISTER_DEVICE payload ds) l ps).
Proof.
  revert l. induction ps as [|p ps IH]; intros l Hnd; simpl; [done|].
  by apply IH, REGISTER_DEVICE_NoDup.
Qed.

Lemma REGISTER_DEVICE_other p l x :
  x ∈ l -> serial x <> serial p -> x ∈ REGISTER_DEVICE p l.
Proof.
  intros Hin Hne. induction l as [|d l IH]; simpl.
  { by apply elem_of_nil in Hin. }
  apply elem_of_cons in Hin as [->|Hin].
  - rewrite decide_False by done. by left.
  - case_decide; right; [done|by apply IH].
Qed.

Lemma REGISTER_DEVICE_elem_inv p l x :
  x ∈ REGISTER_DEVICE p l -> x = p \/ x ∈ l.
Proof.
  induction l as [|d l IH]; simpl.
  - intros ->%list_elem_of_singleton. by left.
  - case_decide.
    + intros [->|?]%elem_of_cons; [by left|]. right. by right.
    + intros [->|Hin]%elem_of_cons; [right; by left|].
      destruct (IH Hin) as [->|?]; [by left|]. right. by right.
Qed.

Lemma foldl_REGISTER_DEVICE_keep ps l x :
  x ∈ l -> serial x ∉ serial <$> ps ->
  x ∈ foldl (fun ds payload => REGISTER_DEVICE payload ds) l ps.
Proof.
  revert l. induction ps as [|p ps IH]; intros l Hin Hnot; simpl; [done|].
  rewrite fmap_cons in Hnot. apply not_elem_of_cons in Hnot as [Hne Hnot].
  apply IH; [|done]. by apply REGISTER_DEVICE_other.
Qed.

Lemma foldl_REGISTER_DEVICE_elem ps l x :
  NoDup (serial <$> ps) -> x ∈ ps ->
  x ∈ foldl (fun ds payload => REGISTER_DEVICE payload ds) l ps.
Proof.
  revert l. induction ps as [|p ps IH]; intros l Hnd Hin; simpl.
  { by apply elem_of_nil in Hin. }
  rewrite fmap_cons in Hnd. apply NoDup_cons in Hnd as [Hp Hnd].
  apply elem_of_cons in Hin as [->|Hin]; [|by apply IH].
  apply foldl_REGISTER_DEVICE_keep; [apply REGISTER_DEVICE_elem|done].
Qed.

Lemma foldl_REGISTER_DEVICE_elem_inv ps l x :
  x ∈ foldl (fun ds payload => REGISTER_DEVICE payload ds) l ps ->
  x ∈ l \/ x ∈ ps.
Proof.
  revert l. induction ps as [|p ps IH]; intros l; simpl; [by left|].
  intros [Hin|Hin]%IH; [|right; by right].
  apply REGISTER_DEVICE_elem_inv in Hin as [->|?]; [right; by left|by left].
Qed.

(** ** [unregisterDevices] *)

Lemma find_serial_Some id l d :
  find_serial id l = Some d -> d ∈ l /\ serial d = id.
Proof.
  unfold find_serial. intros [Hin Hb]%find_some.
  split; [by apply list_elem_of_In|]. by apply bool_decide_eq_true in Hb.
Qed.

Lemma find_serial_unique l d :
  NoDup (serial <$> l) -> d ∈ l -> find_serial (serial d) l = Some d.
Proof.
  intros Hnd Hin. destruct (find_serial (serial d) l) as [d'|] eqn:Hf.
  - apply find_serial_Some in Hf as [Hin' Hs]. f_equal.
    by apply (serial_unique_elem l).
  - unfold find_serial in Hf. apply list_elem_of_In in Hin.
    pose proof (find_none _ _ Hf _ Hin) as Hb. simpl in Hb.
    by apply bool_decide_eq_false in Hb.
Qed.

(** Every archived copy is the archive of a live entry with one of the
    given serials. *)
Lemma archivedDevices_elem deviceIds l a :
  a ∈ archivedDevices deviceIds l <->
  exists d, d ∈ l /\ serial d ∈ deviceIds /\ isArchived d = false
            /\ find_serial (serial d) l = Some d /\ a = archive d.
Proof.
  unfold archivedDevices. rewrite list_elem_of_omap. split.
  - intros (id & Hid & Hf).
    destruct (find_serial id l) as [d|] eqn:Hfind; [|done].
    destruct (isArchived d) eqn:Ha; [done|]. injection Hf as <-.
    apply find_serial_Some in Hfind as Hd. destruct Hd as [Hin <-].
    by exists d.
  - intros (d & Hin & Hid & Ha & Hfind & ->).
    exists (serial d). split; [done|]. by rewrite Hfind, Ha.
Qed.

Lemma archivedDevices_serials deviceIds l :
  NoDup deviceIds -> NoDup (serial <$> archivedDevices deviceIds l).
Proof.
  induction deviceIds as [|id ids IH]; [intros _; apply NoDup_nil_2|].
  rewrite NoDup_cons. intros [Hid Hnd].
  unfold archivedDevices. csimpl. fold (archivedDevices ids l).
  destruct (find_serial id l) as [d|] eqn:Hf; [|by apply IH].
  destruct (isArchived d) eqn:Ha; csimpl; [by apply IH|].
  apply NoDup_cons. split; [|by apply IH].
  intros (a & Hs & Hin)%list_elem_of_fmap.
  apply archivedDevices_elem in Hin as (d' & _ & Hd' & _ & _ & ->).
  simpl in Hs. apply find_serial_Some in Hf as [_ <-]. congruence.
Qed.

Lemma android_serials_NoDup l :
  NoDup (serial <$> l) ->
  NoDup (map serial (List.filter isAndroidDevice l)).
Proof.
  induction l as [|d l IH]; [intros _; apply NoDup_nil_2|].
  rewrite fmap_cons, NoDup_cons. intros [Hd Hl]. simpl.
  destruct (isAndroidDevice d); [|by apply IH].
  simpl. apply NoDup_cons. split; [|by apply IH].
  intros (x & Hx & Hin)%list_elem_of_fmap. apply Hd.
  apply list_elem_of_fmap. exists x. split; [done|].
  apply list_elem_of_In in Hin. apply filter_In in Hin as [Hin _].
  by apply list_elem_of_In.
Qed.

Lemma android_serials_elem l d :
  d ∈ l -> isAndroidDevice d = true ->
  serial d ∈ map serial (List.filter isAndroidDevice l).
Proof.
  intros Hin Ha. apply list_elem_of_In, in_map, filter_In.
  split; [by apply list_elem_of_In|done].
Qed.

Lemma android_serials_inv l id :
  id ∈ map serial (List.filter isAndroidDevice l) ->
  exists d, d ∈ l /\ isAndroidDevice d = true /\ serial d = id.
Proof.
  intros Hin. apply list_elem_of_In, in_map_iff in Hin as (d & Hs & Hin).
  apply filter_In in Hin as [Hin Ha]. exists d.
  split_and!; [by apply list_elem_of_In|done|done].
Qed.

(** ** The invariant of the watcher *)

Lemma registerDevice_resume_NoDup androidDevice w :
  NoDup (serial <$> devices w) ->
  NoDup (serial <$> devices (registerDevice_resume androidDevice w)).
Proof.
  intros Hnd. unfold registerDevice_resume. simpl.
  by apply REGISTER_DEVICE_NoDup, UNREGISTER_DEVICES_NoDup.
Qed.

Lemma unregisterDevices_NoDup deviceIds w :
  NoDup (serial <$> devices w) ->
  NoDup (serial <$> devices (unregisterDevices deviceIds w)).
Proof.
  intros Hnd. unfold unregisterDevices. simpl.
  by apply foldl_REGISTER_DEVICE_NoDup, UNREGISTER_DEVICES_NoDup.
Qed.

Lemma settle_NoDup k r result w :
  NoDup (serial <$> devices w) ->
  NoDup (serial <$> devices (settle k r result w)).
Proof.
  intros Hnd. unfold settle. destruct result; simpl; try done.
  by apply REGISTER_DEVICE_NoDup, UNREGISTER_DEVICES_NoDup.
Qed.

Lemma step_NoDup w e w' :
  NoDup (serial <$> devices w) ->
  step w e = Normal w' ->
  NoDup (serial <$> devices w').
Proof.
  intros Hnd. destruct e; simpl.
  - unfold on_error. destruct (String.eqb _ _); [|done].
    intros [= <-]. simpl. by apply unregisterDevices_NoDup.
  - intros [= <-]. unfold on_add. by destruct (negb _).
  - intros [= <-]. unfold on_change. destruct (String.eqb _ _); [|done].
    by apply unregisterDevices_NoDup.
  - intros [= <-]. by apply unregisterDevices_NoDup.
  - intros [= <-]. unfold on_properties.
    destruct (inflight w !! k) as [r|]; [|done].
    destruct (progress r); try done.
    destruct (createDevice_type _); [done|]. by apply settle_NoDup.
  - intros [= <-]. unfold on_properties_rejected.
    destruct (inflight w !! k) as [r|]; [|done].
    by destruct (progress r).
  - intros [= <-]. unfold on_exec.
    destruct (inflight w !! k) as [r|]; [|done].
    destruct (progress r); try done. by apply settle_NoDup.
  - by intros [= <-].
Qed.

Lemma run_NoDup es w w' :
  NoDup (serial <$> devices w) ->
  run w es = Normal w' ->
  NoDup (serial <$> devices w').
Proof.
  revert w. induction es as [|e es IH]; intros w Hnd; simpl.
  - by intros [= <-].
  - destruct (step w e) as [w1|] eqn:Hs; [|done].
    apply IH. by eapply step_NoDup.
Qed.

Lemma reconnectedDevices_elem androidDevice l d :
  d ∈ l -> serial d = serial androidDevice -> isArchived d = true ->
  serial d ∈ reconnectedDevices androidDevice l.
Proof.
  intros Hin Hs Ha. unfold reconnectedDevices.
  apply list_elem_of_In, in_map, filter_In. split; [by apply list_elem_of_In|].
  rewrite Ha, andb_true_r. by apply bool_decide_eq_true.
Qed.

(** C2. Modelled on the registry of the specification (a mapping from
    serial to handle).  In every state the watcher reaches from a registry
    with one handle per serial, two live entries with the same serial are
    the same entry; and when [registerDevice] goes on with a device, the
    archived entry with its serial is gone from the registry before the
    device is registered, after which the device is the only entry with
    its serial. *)
Theorem one_live_handle_per_id w0 es w :
  NoDup (serial <$> devices w0) ->
  run w0 es = Normal w ->
  (forall i j d1 d2,
      devices w !! i = Some d1 -> devices w !! j = Some d2 ->
      serial d1 = serial d2 ->
      isArchived d1 = false -> isArchived d2 = false -> i = j)
  /\ (forall androidDevice,
        let superseded :=
          UNREGISTER_DEVICES
            (list_to_set (reconnectedDevices androidDevice (devices w)))
            (devices w) in
        let w' := registerDevice_resume androidDevice w in
        (forall d, d ∈ superseded -> serial d = serial androidDevice ->
                   isArchived d = false)
        /\ devices w' = REGISTER_DEVICE androidDevice superseded
        /\ androidDevice ∈ devices w'
        /\ (forall d, d ∈ devices w' -> serial d = serial androidDevice ->
                      d = androidDevice)).
Proof.
  intros Hnd0 Hrun. pose proof (run_NoDup _ _ _ Hnd0 Hrun) as Hnd.
  split.
  { intros i j d1 d2 Hi Hj Hs _ _. by eapply serial_unique. }
  intros androidDevice superseded w'.
  assert (devices w' = REGISTER_DEVICE androidDevice superseded) as Hw'
    by done.
  split_and!; [|done| |].
  - intros d [Hin Hnot]%elem_of_UNREGISTER_DEVICES Hs.
    destruct (isArchived d) eqn:Ha; [|done]. destruct Hnot.
    apply elem_of_list_to_set. by apply reconnectedDevices_elem.
  - rewrite Hw'. apply REGISTER_DEVICE_elem.
  - intros d Hin Hs.
    apply (serial_unique_elem (devices w')); [|done| |done].
    + by apply registerDevice_resume_NoDup.
    + rewrite Hw'. apply REGISTER_DEVICE_elem.
Qed.

(** The registry after [unregisterDevices], for serials without
    repetition and a registry with one handle per serial. *)
Lemma unregisterDevices_elem deviceIds w x :
  NoDup (serial <$> devices w) -> NoDup deviceIds ->
  x ∈ devices (unregisterDevices deviceIds w) <->
  (x ∈ devices w /\ serial x ∉ deviceIds)
  \/ (exists d, d ∈ devices w /\ serial d ∈ deviceIds
                /\ isArchived d = false /\ x = archive d).
Proof.
  intros Hnd Hids. unfold unregisterDevices. simpl. split.
  - intros [Hin|Hin]%foldl_REGISTER_DEVICE_elem_inv.
    + left. apply elem_of_UNREGISTER_DEVICES in Hin as [? Hn].
      split; [done|]. by rewrite elem_of_list_to_set in Hn.
    + right. apply archivedDevices_elem in Hin as (d & ? & ? & ? & _ & ->).
      by exists d.
  - intros [[Hin Hn]|(d & Hin & Hid & Ha & ->)].
    + apply foldl_REGISTER_DEVICE_keep.
      * apply elem_of_UNREGISTER_DEVICES. split; [done|].
        by rewrite elem_of_list_to_set.
      * intros (a & Hs & Ha)%list_elem_of_fmap.
        apply archivedDevices_elem in Ha as (d & _ & Hd & _ & _ & ->).
        simpl in Hs. congruence.
    + apply foldl_REGISTER_DEVICE_elem.
      * by apply archivedDevices_serials.
      * apply archivedDevices_elem. exists d.
        split_and!; try done. by apply find_serial_unique.
Qed.

(** C7. In a state the watcher reaches from a registry with one handle
    per serial, a tracker error with the message [Connection closed] makes
    the handler archive every live Android entry (after it no Android
    entry is live, and the other entries are still there), log, and set a
    timer of 500 ms for [watchAndroidDevices]; any other tracker error is
    thrown again by the handler, which then neither touches the registry
    nor sets the timer. *)
Theorem tracker_error_handler w0 es w message :
  NoDup (serial <$> devices w0) ->
  run w0 es = Normal w ->
  (message = "Connection closed" ->
   exists w',
     step w (TrackerError message) = Normal w'
     /\ (forall d, d ∈ devices w -> isAndroidDevice d = true ->
                   isArchived d = false -> archive d ∈ devices w')
     /\ (forall d, d ∈ devices w' -> isAndroidDevice d = true ->
                   isArchived d = true)
     /\ (forall d, d ∈ devices w -> isAndroidDevice d = false ->
                   d ∈ devices w')
     /\ effects w' =
        effects w
        ++ map TrackUnregisterDevice
             (map serial (List.filter isAndroidDevice (devices w)))
        ++ [ConsoleError "adb server was shutdown";
            SetTimeout_watchAndroidDevices 500]
     /\ inflight w' = inflight w)
  /\ (message <> "Connection closed" ->
      step w (TrackerError message) = Throw message).
Proof.
  intros Hnd0 Hrun. pose proof (run_NoDup _ _ _ Hnd0 Hrun) as Hnd.
  pose proof (android_serials_NoDup _ Hnd) as Hids.
  split.
  - intros ->. eexists. split; [reflexivity|].
    split_and!.
    + intros d Hin Hand Hlive. simpl.
      apply unregisterDevices_elem; [done|done|]. right. exists d.
      split_and!; try done. by apply android_serials_elem.
    + intros d Hin Hand. simpl in Hin.
      apply unregisterDevices_elem in Hin
        as [[Hin Hn]|(d0 & _ & _ & _ & ->)]; [|done|done|done].
      destruct Hn. by apply android_serials_elem.
    + intros d Hin Hand. simpl.
      apply unregisterDevices_elem; [done|done|]. left. split; [done|].
      intros (d' & Hin' & Hand' & Hs)%android_serials_inv.
      assert (d' = d) as -> by (by apply (serial_unique_elem (devices w))).
      congruence.
    + simpl. by rewrite <- app_assoc.
    + done.
  - intros Hne. simpl. unfold on_error.
    apply String.eqb_neq in Hne. by rewrite Hne.
Qed.

(** ** Calls under way *)

Lemma registerDevice_lookup device w :
  inflight (registerDevice device w) !! length (inflight w) =
  Some (Registration device (serverPorts w) AwaitingProperties).
Proof. simpl. by apply list_lookup_middle. Qed.

(** C6. For every emulator whose probe yields no name, [createDevice]
    resolves to a device named by [ro.product.model], and the registration
    started by an [add] event runs to its end and registers that device.
    The probe hands its callback a string, as [exec] with an encoding
    does, with or without an error (as after the timeout); the string is
    empty or such that no name, or the empty name, is read from it. *)
Theorem emulator_registers_under_raw_name w device props error s :
  device_type device <> "offline" ->
  createDevice_type device = emulator ->
  (forall name, match_avd_name (trim s) = Some name -> name = "") ->
  let k := length (inflight w) in
  let androidDevice :=
    AndroidDevice (device_id device) emulator (ro_product_model props) in
  createDevice device (Resolved props) error (VString s)
  = Resolved androidDevice
  /\ exists w',
      run w [TrackerAdd device; PropertiesResolved k props;
             ExecCallback k error (VString s)] = Normal w'
      /\ androidDevice ∈ devices w'
      /\ progress_of k w' = Some Registered.
Proof.
  intros Hon Hemu Hname k androidDevice.
  assert (createDevice device (Resolved props) error (VString s)
          = Resolved androidDevice) as Hcreate.
  { unfold createDevice, getRunningEmulatorName. rewrite Hemu.
    destruct (match_avd_name (trim s)) as [name|] eqn:Hm; [|done].
    by rewrite (Hname name eq_refl). }
  split; [done|].
  apply String.eqb_neq in Hon. subst k.
  cbn [run step]. unfold on_add. rewrite Hon. cbn [negb].
  unfold on_properties. rewrite registerDevice_lookup.
  cbn [progress deviceData_of]. rewrite Hemu.
  unfold on_exec. cbn [inflight with_progress doing registerDevice].
  rewrite list_lookup_alter_eq.
  rewrite list_lookup_middle by done. cbn [fmap option_fmap option_map].
  cbn [progress deviceData_of]. rewrite Hcreate.
  eexists. split; [reflexivity|]. split.
  - unfold settle, registerDevice_resume. simpl.
    apply REGISTER_DEVICE_elem.
  - unfold progress_of, settle, registerDevice_resume. simpl.
    rewrite !list_lookup_alter_eq, list_lookup_middle by done. done.
Qed.

Lemma with_progress_other j k p w :
  j <> k -> progress_of k (with_progress j p w) = progress_of k w.
Proof.
  intros Hne. unfold progress_of, with_progress. simpl.
  by rewrite list_lookup_alter_ne.
Qed.

Lemma settle_other j k r result w :
  j <> k -> progress_of k (settle j r result w) = progress_of k w.
Proof.
  intros Hne. unfold settle.
  destruct result; try by apply with_progress_other.
  unfold progress_of, registerDevice_resume. simpl.
  by rewrite list_lookup_alter_ne.
Qed.

Lemma registerDevice_progress device k w p :
  progress_of k w = Some p -> progress_of k (registerDevice device w) = Some p.
Proof.
  unfold progress_of. simpl. intros Hp.
  destruct (inflight w !! k) as [r|] eqn:Hk; [|done].
  by rewrite (lookup_app_l_Some _ _ _ _ Hk).
Qed.

(** A call that was abandoned stays abandoned, whatever happens next. *)
Lemma step_abandoned k w e w' :
  progress_of k w = Some Abandoned ->
  step w e = Normal w' ->
  progress_of k w' = Some Abandoned.
Proof.
  intros Hk.
  assert (forall j r, inflight w !! j = Some r ->
                      progress r <> Abandoned -> j <> k) as Hne.
  { intros j r Hj Hp ->. unfold progress_of in Hk. rewrite Hj in Hk.
    simpl in Hk. congruence. }
  destruct e; simpl.
  - unfold on_error. destruct (String.eqb _ _); [|done]. by intros [= <-].
  - intros [= <-]. unfold on_add. destruct (negb _); [|done].
    by apply registerDevice_progress.
  - intros [= <-]. unfold on_change. destruct (String.eqb _ _); [done|].
    by apply registerDevice_progress.
  - by intros [= <-].
  - intros [= <-]. unfold on_properties.
    destruct (inflight w !! k0) as [r|] eqn:Hj; [|done].
    destruct (progress r) eqn:Hp; try done.
    assert (k0 <> k) by (eapply Hne; [done|by rewrite Hp]).
    destruct (createDevice_type _).
    + by rewrite with_progress_other.
    + by rewrite settle_other.
  - intros [= <-]. unfold on_properties_rejected.
    destruct (inflight w !! k0) as [r|] eqn:Hj; [|done].
    destruct (progress r) eqn:Hp; try done.
    assert (k0 <> k) by (eapply Hne; [done|by rewrite Hp]).
    by rewrite settle_other.
  - intros [= <-]. unfold on_exec.
    destruct (inflight w !! k0) as [r|] eqn:Hj; [|done].
    destruct (progress r) eqn:Hp; try done.
    assert (k0 <> k) by (eapply Hne; [done|by rewrite Hp]).
    by rewrite settle_other.
  - by intros [= <-].
Qed.

Lemma run_abandoned k es w w' :
  progress_of k w = Some Abandoned ->
  run w es = Normal w' ->
  progress_of k w' = Some Abandoned.
Proof.
  revert w. induction es as [|e es IH]; intros w Hk; simpl.
  - by intros [= <-].
  - destruct (step w e) as [w1|] eqn:Hs; [|done].
    apply IH. by eapply step_abandoned.
Qed.

(** ** [cleanup] *)

(** A handler looks at the store and at the calls under way, never at the
    effects so far. *)
Lemma settle_same k r result a b :
  same_store a b -> same_store (settle k r result a) (settle k r result b).
Proof.
  destruct a, b. intros (Hd & Hp & Hi). simpl in *. subst.
  unfold settle. destruct result; by repeat split.
Qed.

Lemma unregisterDevices_same ids a b :
  same_store a b ->
  same_store (unregisterDevices ids a) (unregisterDevices ids b).
Proof.
  destruct a, b. intros (Hd & Hp & Hi). simpl in *. subst.
  by repeat split.
Qed.

Lemma registerDevice_same device a b :
  same_store a b ->
  same_store (registerDevice device a) (registerDevice device b).
Proof.
  destruct a, b. intros (Hd & Hp & Hi). simpl in *. subst.
  by repeat split.
Qed.

Lemma step_same a b e :
  same_store a b -> same_completion (step a e) (step b e).
Proof.
  intros Hab. pose proof Hab as (Hd & Hp & Hi).
  destruct e; simpl.
  - unfold on_error. rewrite Hd. destruct (String.eqb _ _); [|done].
    simpl. by apply (unregisterDevices_same _ a b).
  - unfold on_add. destruct (negb _); [|done].
    by apply registerDevice_same.
  - unfold on_change. destruct (String.eqb _ _).
    + by apply unregisterDevices_same.
    + by apply registerDevice_same.
  - by apply unregisterDevices_same.
  - unfold on_properties. rewrite Hi.
    destruct (inflight b !! k) as [r|]; [|done].
    destruct (progress r); try done.
    destruct (createDevice_type _).
    + destruct a, b. simpl in *. subst. by repeat split.
    + by apply settle_same.
  - unfold on_properties_rejected. rewrite Hi.
    destruct (inflight b !! k) as [r|]; [|done].
    destruct (progress r); try done. by apply settle_same.
  - unfold on_exec. rewrite Hi.
    destruct (inflight b !! k) as [r|]; [|done].
    destruct (progress r); try done. by apply settle_same.
  - destruct a, b. simpl in *. subst. by repeat split.
Qed.

Lemma run_same es a b :
  same_store a b -> same_completion (run a es) (run b es).
Proof.
  revert a b. induction es as [|e es IH]; intros a b Hab; simpl; [done|].
  pose proof (step_same a b e Hab) as Hs.
  destruct (step a e), (step b e); try done. by apply IH.
Qed.

(** C8, as the code has it. The function the watcher returns asks the adb
    client to kill itself and does nothing else: the registry and the
    calls of [registerDevice] under way are as before, and whatever
    happens afterwards acts on them as it would have without it; a call
    whose name resolution ends later still registers its device. *)
Theorem cleanup_cancels_nothing w es :
  devices (cleanup w) = devices w
  /\ inflight (cleanup w) = inflight w
  /\ effects (cleanup w) = effects w ++ [Kill]
  /\ same_completion (run w es) (run (cleanup w) es).
Proof.
  split_and!; try done. apply run_same. by destruct w.
Qed.

(** C10. An [add] event for a device of type [offline] leaves the watcher
    as it is: registry, calls under way and effects. *)
Theorem add_offline_is_noop w device :
  device_type device = "offline" ->
  step w (TrackerAdd device) = Normal w.
Proof.
  intros Hoff. simpl. unfold on_add. by rewrite Hoff.
Qed.

(** ** Concrete runs *)

Example avd_answer_name :
  getRunningEmulatorName VNull (VString avd_answer)
  = Resolved (VString "Pixel_2_API_28").
Proof. vm_compute. reflexivity. Qed.

Example avd_answer_cut_short :
  getRunningEmulatorName killed (VString "Android Console: type 'help'")
  = Resolved VNull.
Proof. vm_compute. reflexivity. Qed.

(** An emulator whose console answers is registered under the name of
    its virtual device. *)
Example emulator_named_by_console :
  devices
    (state_of
       (run (started None)
          [TrackerAdd emulator_5554; PropertiesResolved 0 sdk_props;
           ExecCallback 0 VNull (VString avd_answer)]))
  = [AndroidDevice "emulator-5554" emulator (VString "Pixel_2_API_28")].
Proof. vm_compute. reflexivity. Qed.

Lemma one_live_handle_per_id_witness :
  let es := [TrackerAdd pixel; PropertiesResolved 0 pixel_props;
             TrackerRemove pixel] in
  let w := state_of (run (started None) es) in
  let androidDevice := AndroidDevice "8AXY0123" physical (VString "Pixel 3") in
  run (started None) es = Normal w
  /\ devices w = [archive androidDevice]
  /\ devices (registerDevice_resume androidDevice w) = [androidDevice]
  /\ (forall d, d ∈ devices (registerDevice_resume androidDevice w) ->
                serial d = serial androidDevice -> d = androidDevice).
Proof.
  intros es w androidDevice.
  assert (NoDup (serial <$> devices (started None))) as H1
    by apply NoDup_nil_2.
  assert (run (started None) es = Normal w) as H2
    by (vm_compute; reflexivity).
  destruct (one_live_handle_per_id (started None) es w H1 H2) as [_ Hb].
  destruct (Hb androidDevice) as (_ & _ & _ & Hd).
  split_and!; [done|vm_compute; reflexivity|vm_compute; reflexivity|done].
Defined.

Lemma emulator_registers_under_raw_name_witness :
  let androidDevice :=
    AndroidDevice "emulator-5554" emulator (VString "sdk_gphone_x86") in
  createDevice emulator_5554 (Resolved sdk_props) killed (VString "")
  = Resolved androidDevice
  /\ exists w',
      run (started None)
        [TrackerAdd emulator_5554; PropertiesResolved 0 sdk_props;
         ExecCallback 0 killed (VString "")] = Normal w'
      /\ androidDevice ∈ devices w'
      /\ progress_of 0 w' = Some Registered.
Proof.
  assert (device_type emulator_5554 <> "offline") as H1 by done.
  assert (createDevice_type emulator_5554 = emulator) as H2
    by (vm_compute; reflexivity).
  assert (forall name, match_avd_name (trim "") = Some name -> name = "")
    as H3 by (intros name Hn; vm_compute in Hn; discriminate).
  exact (emulator_registers_under_raw_name (started None) emulator_5554
           sdk_props killed "" H1 H2 H3).
Defined.

Lemma tracker_error_handler_witness :
  let es := [TrackerAdd pixel; PropertiesResolved 0 pixel_props] in
  let w := state_of (run (started None) es) in
  let androidDevice := AndroidDevice "8AXY0123" physical (VString "Pixel 3") in
  devices w = [androidDevice]
  /\ (exists w',
        step w (TrackerError "Connection closed") = Normal w'
        /\ archive androidDevice ∈ devices w'
        /\ SetTimeout_watchAndroidDevices 500 ∈ effects w')
  /\ step w (TrackerError "read ECONNRESET") = Throw "read ECONNRESET".
Proof.
  intros es w androidDevice.
  assert (NoDup (serial <$> devices (started None))) as H1
    by apply NoDup_nil_2.
  assert (run (started None) es = Normal w) as H2
    by (vm_compute; reflexivity).
  assert (devices w = [androidDevice]) as Hw by (vm_compute; reflexivity).
  split; [done|]. split.
  - destruct (tracker_error_handler (started None) es w
                "Connection closed" H1 H2) as [Hc _].
    destruct (Hc eq_refl) as (w' & Hs & Ha & _ & _ & He & _).
    exists w'. split_and!; [done| |].
    + apply Ha; [rewrite Hw; by left|done|done].
    + rewrite He. rewrite !elem_of_app. right. right. right. by left.
  - destruct (tracker_error_handler (started None) es w
                "read ECONNRESET" H1 H2) as [_ Ht].
    by apply Ht.
Defined.

(** C8 as stated fails: a registration that is waiting for the name of
    its emulator when the cleanup function runs registers its device when
    the name arrives afterwards. *)
Lemma registration_completes_after_cleanup :
  let es := [TrackerAdd emulator_5554; PropertiesResolved 0 sdk_props;
             Cleanup] in
  let w1 := state_of (run (started None) es) in
  let w2 := state_of (step w1 (ExecCallback 0 VNull (VString avd_answer))) in
  run (started None) es = Normal w1
  /\ effects w1
     = [GetProperties "emulator-5554"; ExecAvdName "5554"; Kill]
  /\ devices w1 = []
  /\ progress_of 0 w1 = Some (AwaitingEmulatorName sdk_props)
  /\ step w1 (ExecCallback 0 VNull (VString avd_answer)) = Normal w2
  /\ devices w2
     = [AndroidDevice "emulator-5554" emulator (VString "Pixel_2_API_28")].
Proof. vm_compute. done. Qed.

Lemma add_offline_is_noop_witness :
  device_type pixel_offline = "offline"
  /\ step (started None) (TrackerAdd pixel_offline) = Normal (started None).
Proof.
  assert (device_type pixel_offline = "offline") as H1 by reflexivity.
  split; [done|]. exact (add_offline_is_noop (started None) pixel_offline H1).
Defined.

End DevicesFacts.

(** * More on the plugin loader *)

Module PluginsMore.
Import Js Plugins Shape PluginsFacts.

(** An element is not among the listed ones. *)
Ltac not_among :=
  let H := fresh in
  intros H;
  repeat (apply elem_of_cons in H as [?|H]; [done|]);
  by apply elem_of_nil in H.

Section Loader.

Context (config_disabledPlugins : option (gset string))
        (GK_get : value -> bool)
        (reqFn : value -> message + value).

Local Abbreviation try_require := (try_require reqFn).
Local Abbreviation initialPlugins :=
  (initialPlugins config_disabledPlugins GK_get reqFn).
Local Abbreviation is_disabled := (is_disabled config_disabledPlugins).
Local Abbreviation is_gatekept := (is_gatekept GK_get).
Local Abbreviation classify := (classify config_disabledPlugins GK_get reqFn).

(** *** What a load writes *)

(** The loop writes on the class it is given only, never its [name], and
    besides [id] only properties named by the keys it runs over. *)
Lemma backfill_frame d r ks h h' res r' k :
  backfill d r ks h = (h', res) ->
  k = "name" \/ (k <> "id" /\ k ∉ ks) \/ r' <> r ->
  get_prop h' (VObject r') k = get_prop h (VObject r') k.
Proof.
  revert h. induction ks as [|key ks IH]; intros h; cbn [backfill].
  - by intros [= <- <-].
  - destruct (backfill_key d r h key) as [e|h1] eqn:Hk.
    + by intros [= <- <-].
    + intros Hb Hcond. apply backfill_key_inr in Hk as [Hki ->].
      rewrite (IH _ Hb).
      * rewrite get_set_prop.
        destruct (decide (_ /\ _)) as [(<- & Hw & _)|_]; [|done].
        exfalso. destruct Hcond as [->|[[Hid Hnin]|Hne]]; [| |done].
        -- destruct (decide (key = "name")); done.
        -- destruct (decide (key = "name")) as [->|]; [done|].
           subst k. apply Hnin. by left.
      * destruct Hcond as [?|[[? Hnin]|?]]; [by left| |by right; right].
        right. left. split; [done|]. intros ?. apply Hnin. by right.
Qed.

Lemma backfill_instanceof d r ks h h' res v :
  backfill d r ks h = (h', res) ->
  prototype_instanceof_FlipperBasePlugin h' v
  = prototype_instanceof_FlipperBasePlugin h v.
Proof.
  revert h. induction ks as [|key ks IH]; intros h; cbn [backfill].
  - by intros [= <- <-].
  - destruct (backfill_key d r h key) as [e|h1] eqn:Hk.
    + by intros [= <- <-].
    + intros Hb. apply backfill_key_inr in Hk as [_ ->].
      rewrite (IH _ Hb). apply set_prop_instanceof.
Qed.

(** No write changes what is writable. *)
Lemma set_prop_read_only h r key v r' k :
  read_only (set_prop h r key v) r' k = read_only h r' k.
Proof.
  unfold set_prop, read_only.
  destruct (decide (r = r')) as [<-|Hr].
  - rewrite lookup_alter_eq. by destruct (h !! r).
  - by rewrite lookup_alter_ne.
Qed.

Lemma backfill_read_only d r ks h h' res r' k :
  backfill d r ks h = (h', res) ->
  read_only h' r' k = read_only h r' k.
Proof.
  revert h. induction ks as [|key ks IH]; intros h; cbn [backfill].
  - by intros [= <- <-].
  - destruct (backfill_key d r h key) as [e|h1] eqn:Hk.
    + by intros [= <- <-].
    + intros Hb. apply backfill_key_inr in Hk as [_ ->].
      rewrite (IH _ Hb). apply set_prop_read_only.
Qed.


(** Whether the callback throws, and what, depends on the heap through
    what is writable only. *)
Lemma backfill_key_same d r h h' key :
  (forall k, read_only h r k = read_only h' r k) ->
  match backfill_key d r h key, backfill_key d r h' key with
  | inl e, inl e' => e = e'
  | inr _, inr _ => True
  | _, _ => False
  end.
Proof.
  intros Hro. unfold backfill_key, assign.
  destruct (decide (key = "name")) as [->|Hn].
  - rewrite <- Hro. by destruct (read_only h r "id").
  - destruct (decide (key = "id")); [done|].
    rewrite <- Hro. by destruct (read_only h r key).
Qed.

Lemma backfill_same_result d r ks h h' :
  (forall k, read_only h r k = read_only h' r k) ->
  (backfill d r ks h).2 = (backfill d r ks h').2.
Proof.
  revert h h'. induction ks as [|key ks IH]; intros h h' Hro;
    cbn [backfill]; [done|].
  pose proof (backfill_key_same d r h h' key Hro) as Hsame.
  destruct (backfill_key d r h key) as [e|h1] eqn:Hk,
           (backfill_key d r h' key) as [e'|h1'] eqn:Hk'; try done.
  - by subst.
  - apply IH. intros k.
    apply backfill_key_inr in Hk as [_ ->].
    apply backfill_key_inr in Hk' as [_ ->].
    by rewrite !set_prop_read_only.
Qed.


(** The [try] block unfolded: what it reads, and the loop it runs. *)
Lemma try_require_cases d h :
  (exists e, reqFn (get d "out") = inl e /\ try_require d h = (h, inl e))
  \/ (exists m, reqFn (get d "out") = inr m /\ nullish m = true
                /\ try_require d h = (h, inl (CannotReadProperty "default")))
  \/ (exists m plugin,
        reqFn (get d "out") = inr m /\ nullish m = false
        /\ plugin = (if truthy (get_prop h m "default")
                     then get_prop h m "default" else m)
        /\ ((prototype_instanceof_FlipperBasePlugin h plugin = false
             /\ try_require d h
                = (h, inl (NotAFlipperBasePlugin (get_prop h plugin "name"))))
            \/ (exists r, plugin = VObject r
                  /\ prototype_instanceof_FlipperBasePlugin h plugin = true
                  /\ try_require d h =
                     ((backfill d r (keys d) h).1,
                      match (backfill d r (keys d) h).2 with
                      | Some e => inl e
                      | None => inr plugin
                      end)))).
Proof.
  unfold Plugins.try_require.
  destruct (reqFn (get d "out")) as [e|m]; [left; by eauto|]. right.
  destruct (nullish m) eqn:Hn; [left; by eauto|]. right.
  exists m. eexists. split_and!; [done|done|reflexivity|].
  set (plugin := if truthy (get_prop h m "default") then _ else m).
  destruct (prototype_instanceof_FlipperBasePlugin h plugin) eqn:Hp;
    simpl; [|by left].
  right. destruct plugin as [| | | | | |r]; try done.
  exists r. split_and!; [done|done|].
  by destruct (backfill d r (keys d) h) as [h1 [e|]].
Qed.

Lemma try_require_frame d h h' res v k :
  try_require d h = (h', res) ->
  k = "name" \/ (k <> "id" /\ k ∉ keys d) ->
  get_prop h' v k = get_prop h v k.
Proof.
  intros Hr Hk. destruct v as [| | | | | |r']; try done.
  destruct (try_require_cases d h)
    as [(e & _ & He)|[(m & _ & _ & He)|(m & plugin & _ & _ & _ & Hc)]].
  - rewrite He in Hr. by injection Hr as <- _.
  - rewrite He in Hr. by injection Hr as <- _.
  - destruct Hc as [[_ He]|(r & _ & _ & He)].
    + rewrite He in Hr. by injection Hr as <- _.
    + rewrite He in Hr. injection Hr as <- _.
      destruct (backfill d r (keys d) h) as [h1 res1] eqn:Hb. simpl.
      eapply backfill_frame; [done|]. destruct Hk as [?|?]; [by left|].
      right. by left.
Qed.

(** X1. No load, failed or not, writes the [name] of any object, and no
    load writes a property other than [id] that the descriptor does not
    name. *)
Theorem load_writes_descriptor_keys_only d h h' res v k :
  try_require d h = (h', res) ->
  k = "name" \/ (k <> "id" /\ k ∉ keys d) ->
  get_prop h' v k = get_prop h v k.
Proof. apply try_require_frame. Qed.


(** X3. Whatever the pipeline loads, a property that holds a truthy value
    before the pipeline holds the same value after it, on every class. *)
Theorem pipeline_keeps_truthy_statics bundled dynamic h r k :
  truthy (get_prop h (VObject r) k) = true ->
  get_prop (loadedClasses (initialPlugins bundled dynamic h)) (VObject r) k
  = get_prop h (VObject r) k.
Proof.
  intros Ht. rewrite initialPlugins_classify. simpl.
  by apply classify_keeps_truthy.
Qed.

Lemma filter_sublist {A} (p : A -> bool) (l : list A) :
  List.filter p l `sublist_of` l.
Proof.
  induction l as [|x l IH]; simpl; [done|].
  destruct (p x); [by apply sublist_skip|by apply sublist_cons].
Qed.

Lemma failed_sublist (os : list outcome) :
  (omap failed_of os).*1 `sublist_of` map descriptor_of os.
Proof.
  induction os as [|o os IH]; [done|].
  destruct o; csimpl; try (by apply sublist_cons). by apply sublist_skip.
Qed.

(** X4. Each dispatched collection of descriptors lists its descriptors in
    the order of the input: the disabled ones, the gatekept ones and the
    failed ones are each a subsequence of the bundled descriptors followed
    by the dynamic ones. *)
Theorem collections_keep_input_order bundled dynamic h :
  let r := initialPlugins bundled dynamic h in
  addDisabledPlugins r `sublist_of` bundled ++ dynamic
  /\ addGatekeepedPlugins r `sublist_of` bundled ++ dynamic
  /\ (addFailedPlugins r).*1 `sublist_of` bundled ++ dynamic.
Proof.
  intros r. subst r. rewrite initialPlugins_classify. simpl.
  rewrite classify_disabled, classify_gatekept. split_and!.
  - apply filter_sublist.
  - etrans; apply filter_sublist.
  - rewrite <- (classify_descriptors config_disabledPlugins GK_get reqFn h
                  (bundled ++ dynamic)) at 2.
    apply failed_sublist.
Qed.

(** X6. Every gatekept descriptor comes from the input, is not disabled,
    names a truthy gatekeeper key for which [GK.get] answered false, and
    that key is among the keys [GK.get] was asked about; and [GK.get] is
    never asked about a falsy key. *)
Theorem gatekept_descriptors_were_queried bundled dynamic h d :
  let r := initialPlugins bundled dynamic h in
  d ∈ addGatekeepedPlugins r ->
  d ∈ bundled ++ dynamic
  /\ is_disabled d = false
  /\ truthy (get d "gatekeeper") = true
  /\ GK_get (get d "gatekeeper") = false
  /\ get d "gatekeeper" ∈ queriedGatekeepers r
  /\ Forall (fun q => truthy q = true) (queriedGatekeepers r).
Proof.
  intros r. subst r. rewrite initialPlugins_classify. simpl.
  rewrite classify_gatekept. intros Hin.
  apply list_elem_of_In, filter_In in Hin as [Hin Hg].
  apply filter_In in Hin as [Hin Hd].
  unfold Plugins.is_gatekept, has_gatekeeper in Hg.
  apply andb_true_iff in Hg as [Hk Hg].
  split_and!.
  - by apply list_elem_of_In.
  - by destruct (is_disabled d).
  - done.
  - by destruct (GK_get (get d "gatekeeper")).
  - apply list_elem_of_In, in_map_iff. exists d. split; [done|].
    apply filter_In. split; [|done]. by apply filter_In.
  - apply Forall_forall. intros q Hq.
    apply list_elem_of_In, in_map_iff in Hq as (d' & <- & Hd').
    by apply filter_In in Hd' as [_ ?].
Qed.

(** *** Running the pipeline again *)

Lemma same_shape_refl h : same_shape h h.
Proof. by split. Qed.

Lemma same_shape_sym h h' : same_shape h h' -> same_shape h' h.
Proof.
  intros [H Hro]. split.
  - intros v. destruct (H v) as (-> & -> & ->). done.
  - intros r key. by rewrite Hro.
Qed.

Lemma same_shape_trans h1 h2 h3 :
  same_shape h1 h2 -> same_shape h2 h3 -> same_shape h1 h3.
Proof.
  intros [H12 Hro12] [H23 Hro23]. split.
  - intros v. destruct (H12 v) as (-> & -> & ->). apply H23.
  - intros r key. by rewrite Hro12.
Qed.

Lemma try_require_read_only d h h' res r k :
  try_require d h = (h', res) ->
  read_only h' r k = read_only h r k.
Proof.
  intros Hr.
  destruct (try_require_cases d h)
    as [(e & _ & He)|[(m & _ & _ & He)|(m & plugin & _ & _ & _ & Hc)]].
  - rewrite He in Hr. by injection Hr as <- _.
  - rewrite He in Hr. by injection Hr as <- _.
  - destruct Hc as [[_ He]|(r0 & _ & _ & He)].
    + rewrite He in Hr. by injection Hr as <- _.
    + rewrite He in Hr. injection Hr as <- _.
      destruct (backfill d r0 (keys d) h) as [h1 res1] eqn:Hb. simpl.
      by eapply backfill_read_only.
Qed.

Lemma try_require_instanceof d h h' res v :
  try_require d h = (h', res) ->
  prototype_instanceof_FlipperBasePlugin h' v
  = prototype_instanceof_FlipperBasePlugin h v.
Proof.
  intros Hr.
  destruct (try_require_cases d h)
    as [(e & _ & He)|[(m & _ & _ & He)|(m & plugin & _ & _ & _ & Hc)]].
  - rewrite He in Hr. by injection Hr as <- _.
  - rewrite He in Hr. by injection Hr as <- _.
  - destruct Hc as [[_ He]|(r & _ & _ & He)].
    + rewrite He in Hr. by injection Hr as <- _.
    + rewrite He in Hr. injection Hr as <- _.
      destruct (backfill d r (keys d) h) as [h1 res1] eqn:Hb. simpl.
      by eapply backfill_instanceof.
Qed.

(** A load for a descriptor without the key [default] leaves the heap
    looking the same to later loads. *)
Lemma try_require_shape d h h' res :
  "default" ∉ keys d ->
  try_require d h = (h', res) ->
  same_shape h h'.
Proof.
  intros Hd Hr. split.
  - intros v. split_and!.
    + symmetry. eapply try_require_frame; [done|].
      right. by split.
    + symmetry. eapply try_require_frame; [done|]. by left.
    + symmetry. by eapply try_require_instanceof.
  - intros r key. symmetry. by eapply try_require_read_only.
Qed.

(** What a load answers depends on the heap through its shape only. *)
Lemma try_require_same_result d h h' :
  same_shape h h' -> (try_require d h).2 = (try_require d h').2.
Proof.
  intros [Hs Hro]. unfold Plugins.try_require.
  destruct (reqFn (get d "out")) as [e|m]; [done|].
  destruct (nullish m); [done|].
  destruct (Hs m) as (<- & _ & _).
  set (plugin := if truthy (get_prop h m "default") then _ else m).
  destruct (Hs plugin) as (_ & <- & <-).
  destruct (prototype_instanceof_FlipperBasePlugin h plugin); simpl; [|done].
  destruct plugin as [| | | | | |r]; try done.
  pose proof (backfill_same_result d r (keys d) h h' (Hro r)) as H1.
  destruct (backfill d r (keys d) h) as [h1 res1].
  destruct (backfill d r (keys d) h') as [h1' res1'].
  simpl in *. subst. by destruct res1'.
Qed.

Lemma classify_same_outcomes l h h' :
  (forall d, d ∈ l -> "default" ∉ keys d) ->
  same_shape h h' ->
  (classify h l).1 = (classify h' l).1.
Proof.
  revert h h'. induction l as [|d l IH]; intros h h' Hl Hs; simpl; [done|].
  assert (forall d0, d0 ∈ l -> "default" ∉ keys d0) as Hl'
    by (intros d0 ?; apply Hl; by right).
  destruct (is_disabled d).
  { specialize (IH h h' Hl' Hs). destruct (classify h l), (classify h' l).
    simpl in *. by f_equal. }
  destruct (is_gatekept d).
  { specialize (IH h h' Hl' Hs). destruct (classify h l), (classify h' l).
    simpl in *. by f_equal. }
  pose proof (try_require_same_result d h h' Hs) as Hres.
  destruct (try_require d h) as [h1 res] eqn:H1.
  destruct (try_require d h') as [h1' res'] eqn:H1'.
  simpl in Hres. subst res'.
  assert ("default" ∉ keys d) as Hd by (apply Hl; by left).
  assert (same_shape h1 h1') as Hs1.
  { eapply same_shape_trans; [|by eapply try_require_shape].
    eapply same_shape_trans; [|done].
    apply same_shape_sym. by eapply try_require_shape. }
  specialize (IH h1 h1' Hl' Hs1).
  destruct res; destruct (classify h1 l), (classify h1' l);
    simpl in *; by f_equal.
Qed.

Lemma classify_shape l h :
  (forall d, d ∈ l -> "default" ∉ keys d) ->
  same_shape h (classify h l).2.
Proof.
  revert h. induction l as [|d l IH]; intros h Hl; simpl.
  { apply same_shape_refl. }
  assert (forall d0, d0 ∈ l -> "default" ∉ keys d0) as Hl'
    by (intros d0 ?; apply Hl; by right).
  destruct (is_disabled d).
  { specialize (IH h Hl'). by destruct (classify h l). }
  destruct (is_gatekept d).
  { specialize (IH h Hl'). by destruct (classify h l). }
  destruct (try_require d h) as [h1 res] eqn:H1.
  assert (same_shape h (classify h1 l).2) as Hgoal.
  { eapply same_shape_trans; [|by apply IH].
    eapply try_require_shape; [|done]. apply Hl. by left. }
  destruct res; by destruct (classify h1 l).
Qed.

(** X7. When no descriptor has the key [default], running the pipeline a
    second time on the classes the first run left dispatches the same four
    collections: the same plugins registered, the same descriptors
    gatekept, disabled and failed, with the same messages. *)
Theorem pipeline_rerun_same_collections bundled dynamic h :
  (forall d, d ∈ bundled ++ dynamic -> "default" ∉ keys d) ->
  let r := initialPlugins bundled dynamic h in
  let r' := initialPlugins bundled dynamic (loadedClasses r) in
  registerPlugins r' = registerPlugins r
  /\ addGatekeepedPlugins r' = addGatekeepedPlugins r
  /\ addDisabledPlugins r' = addDisabledPlugins r
  /\ addFailedPlugins r' = addFailedPlugins r.
Proof.
  intros Hl r r'. subst r r'. rewrite !initialPlugins_classify. simpl.
  rewrite (classify_same_outcomes (bundled ++ dynamic)
             (classify h (bundled ++ dynamic)).2 h Hl).
  - done.
  - apply same_shape_sym. by apply classify_shape.
Qed.

End Loader.

(** X5. When [config()] throws, no descriptor is disabled: the pipeline
    dispatches an empty disabled collection and behaves as it does for an
    empty set of disabled names. *)
Theorem broken_config_disables_nothing GK_get reqFn bundled dynamic h :
  addDisabledPlugins (initialPlugins None GK_get reqFn bundled dynamic h) = []
  /\ initialPlugins None GK_get reqFn bundled dynamic h
     = initialPlugins (Some ∅) GK_get reqFn bundled dynamic h.
Proof.
  split; [|done]. rewrite initialPlugins_classify. simpl.
  rewrite classify_disabled.
  induction (bundled ++ dynamic) as [|d l IH]; [done|]. simpl.
  unfold is_disabled at 1. simpl.
  by destruct (get d "name").
Qed.


Lemma load_writes_descriptor_keys_only_witness :
  let h := one_class {[ "name" := VString "PClass"; "icon" := VString "bug" ]} in
  let loaded := try_require the_class descriptor_titled h in
  get_prop loaded.1 (VObject 0) "name" = VString "PClass"
  /\ get_prop loaded.1 (VObject 0) "icon" = VString "bug".
Proof.
  intros h loaded.
  assert (try_require the_class descriptor_titled h = (loaded.1, loaded.2))
    as H1 by apply surjective_pairing.
  split.
  - rewrite (load_writes_descriptor_keys_only the_class descriptor_titled h
               _ _ (VObject 0) "name" H1); [vm_compute; reflexivity|by left].
  - rewrite (load_writes_descriptor_keys_only the_class descriptor_titled h
               _ _ (VObject 0) "icon" H1); [vm_compute; reflexivity|].
    right. split; [done|]. unfold keys. simpl. not_among.
Defined.

Lemma pipeline_keeps_truthy_statics_witness :
  let h := one_class {[ "title" := VString "Own title" ]} in
  get_prop
    (loadedClasses
       (initialPlugins None GK_on the_class [descriptor_titled]
          [descriptor_titled_icon] h))
    (VObject 0) "title"
  = VString "Own title".
Proof.
  intros h.
  assert (truthy (get_prop h (VObject 0) "title") = true) as H1
    by (vm_compute; reflexivity).
  rewrite (pipeline_keeps_truthy_statics None GK_on the_class
             [descriptor_titled] [descriptor_titled_icon] h 0 "title" H1).
  vm_compute. reflexivity.
Defined.

Lemma gatekept_descriptors_were_queried_witness :
  let r := initialPlugins config_C GK_off the_class
             [descriptor_A; descriptor_B] [descriptor_C_gk] (one_class ∅) in
  descriptor_B ∈ addGatekeepedPlugins r
  /\ get descriptor_B "gatekeeper" ∈ queriedGatekeepers r
  /\ queriedGatekeepers r = [VString "gk_b"].
Proof.
  intros r.
  assert (descriptor_B ∈ addGatekeepedPlugins r) as H1
    by (vm_compute; left).
  destruct (gatekept_descriptors_were_queried config_C GK_off the_class
              [descriptor_A; descriptor_B] [descriptor_C_gk] (one_class ∅)
              descriptor_B H1) as (_ & _ & _ & _ & Hq & _).
  split_and!; [done|done|]. vm_compute. reflexivity.
Defined.

Lemma pipeline_rerun_same_collections_witness :
  let r := initialPlugins config_C GK_off the_class
             [descriptor_A_id; descriptor_titled] [descriptor_B; descriptor_C]
             (one_class ∅) in
  let r' := initialPlugins config_C GK_off the_class
              [descriptor_A_id; descriptor_titled] [descriptor_B; descriptor_C]
              (loadedClasses r) in
  registerPlugins r' = [VObject 0]
  /\ addFailedPlugins r' = [(descriptor_A_id, IdNotAllowed)]
  /\ registerPlugins r' = registerPlugins r
  /\ addFailedPlugins r' = addFailedPlugins r.
Proof.
  intros r r'.
  assert (forall d,
             d ∈ [descriptor_A_id; descriptor_titled]
                 ++ [descriptor_B; descriptor_C] ->
             "default" ∉ keys d) as H1.
  { intros d Hd. simpl in Hd.
    repeat (apply elem_of_cons in Hd as [->|Hd];
            [unfold keys; simpl; not_among|]).
    by apply elem_of_nil in Hd. }
  destruct (pipeline_rerun_same_collections config_C GK_off the_class
              [descriptor_A_id; descriptor_titled] [descriptor_B; descriptor_C]
              (one_class ∅) H1) as (Ha & _ & _ & Hf).
  split_and!; [vm_compute; reflexivity|vm_compute; reflexivity|done|done].
Defined.

End PluginsMore.

(** * More on the Android device watcher *)

Module DevicesMore.
Import Js Devices Listing DevicesFacts.

(** ** [createDevice] *)

(** X8. The promise of [createDevice] is never rejected: it resolves exactly
    when [getProperties] resolves and, for an emulator, the probe hands a
    string to its callback, and it stays pending otherwise; the device it
    resolves to is a live Android device with the id of the tracked device
    as its serial. *)
Theorem createDevice_never_rejects device properties error data :
  (forall reason,
      createDevice device properties error data <> Rejected reason)
  /\ ((exists androidDevice,
          createDevice device properties error data = Resolved androidDevice)
      <-> (exists props, properties = Resolved props)
          /\ (createDevice_type device = physical
              \/ exists s, data = VString s))
  /\ (forall androidDevice,
        createDevice device properties error data = Resolved androidDevice ->
        serial androidDevice = device_id device
        /\ deviceType androidDevice = createDevice_type device
        /\ isArchived androidDevice = false
        /\ isAndroidDevice androidDevice = true).
Proof.
  split_and!.
  - intros reason. unfold createDevice, getRunningEmulatorName.
    by repeat case_match.
  - split.
    + intros [dev H]. unfold createDevice, getRunningEmulatorName in H.
      destruct properties as [props| |]; [|done|done].
      split; [by exists props|].
      destruct (createDevice_type device); [right|by left].
      destruct data as [| | | | |s|]; try done. by exists s.
    + intros [[props ->] [Hp|[s ->]]];
        unfold createDevice, getRunningEmulatorName.
      * rewrite Hp. by eexists.
      * destruct (createDevice_type device);
          [destruct (match_avd_name _)|]; by eexists.
  - intros dev H. unfold createDevice, getRunningEmulatorName in H.
    repeat case_match; try done; by injection H as <-.
Qed.

(** ** The answer of the emulator console *)

Lemma list_ascii_of_string_append s1 s2 :
  list_ascii_of_string (String.append s1 s2)
  = list_ascii_of_string s1 ++ list_ascii_of_string s2.
Proof. induction s1 as [|c s1 IH]; simpl; [done|]. by rewrite IH. Qed.

Lemma take_line_no_terminator l :
  Forall (fun c => is_line_terminator c = false) (take_line l).
Proof.
  induction l as [|c l IH]; simpl; [done|].
  destruct (is_line_terminator c) eqn:Hc; [done|]. by constructor.
Qed.

Lemma take_line_app l c l' :
  Forall (fun c => is_line_terminator c = false) l ->
  is_line_terminator c = true ->
  take_line (l ++ c :: l') = l.
Proof.
  intros Hl Hc. induction Hl as [|x l Hx Hl IH]; simpl.
  - by rewrite Hc.
  - by rewrite Hx, IH.
Qed.

Lemma trim_start_whitespace ws l :
  Forall (fun c => is_whitespace c = true) ws ->
  trim_start (ws ++ l) = trim_start l.
Proof.
  intros Hws. induction Hws as [|x ws Hx Hws IH]; simpl; [done|].
  by rewrite Hx.
Qed.

(** X9. A name read from the answer of the emulator console holds no
    carriage return and no line feed. *)
Theorem console_name_is_one_line error data name :
  getRunningEmulatorName error data = Resolved (VString name) ->
  Forall (fun c => is_line_terminator c = false) (list_ascii_of_string name).
Proof.
  unfold getRunningEmulatorName. destruct data as [| | | | |s|]; try done.
  destruct (match_avd_name (trim s)) as [n|] eqn:Hm; [|done].
  intros [= <-]. unfold match_avd_name in Hm. case_bool_decide; [|done].
  injection Hm as <-. rewrite list_ascii_of_string_of_list_ascii.
  apply Forall_rev, take_line_no_terminator.
Qed.

Lemma trim_start_visible c l :
  is_whitespace c = false -> trim_start (c :: l) = c :: l.
Proof. intros Hc. simpl. by rewrite Hc. Qed.

Lemma trim_list front ws :
  Forall (fun c => is_whitespace c = true) ws ->
  trim_start (rev (front ++ [ascii_of_nat 13; ascii_of_nat 10; "O"%char; "K"%char] ++ ws))
  = rev (front ++ [ascii_of_nat 13; ascii_of_nat 10; "O"%char; "K"%char]).
Proof.
  intros Hws. rewrite !app_assoc, rev_app_distr.
  rewrite trim_start_whitespace by (by apply Forall_rev).
  rewrite rev_app_distr. cbn [rev app]. by apply trim_start_visible.
Qed.

Lemma match_list front name :
  Forall (fun c => is_line_terminator c = false) name ->
  match_avd_name
    (string_of_list_ascii
       (front ++ [ascii_of_nat 13; ascii_of_nat 10] ++ name
        ++ [ascii_of_nat 13; ascii_of_nat 10; "O"%char; "K"%char]))
  = Some (string_of_list_ascii name).
Proof.
  intros Hname. unfold match_avd_name.
  rewrite list_ascii_of_string_of_list_ascii.
  rewrite !app_assoc, rev_app_distr. cbn [rev app].
  rewrite rev_app_distr. cbn [take drop].
  rewrite bool_decide_eq_true_2 by done.
  rewrite rev_app_distr. cbn [rev app]. rewrite drop_0.
  rewrite take_line_app by (by try apply Forall_rev).
  by rewrite rev_involutive.
Qed.

(** X10. When the console's answer is some text that starts with a visible
    character, then CR LF, the name, CR LF, [OK] and trailing white space,
    and the name is on one line, the probe resolves to that name, with or
    without an error. *)
Theorem console_answer_roundtrip error c pre name ws :
  is_whitespace c = false ->
  Forall (fun c => is_line_terminator c = false) (list_ascii_of_string name) ->
  Forall (fun c => is_whitespace c = true) (list_ascii_of_string ws) ->
  getRunningEmulatorName error
    (VString
       (String.append (String c pre)
          (String.append crlf
             (String.append name
                (String.append crlf (String.append "OK" ws))))))
  = Resolved (VString name).
Proof.
  intros Hc Hname Hws. unfold getRunningEmulatorName.
  assert (list_ascii_of_string
            (String.append (String c pre)
               (String.append crlf
                  (String.append name
                     (String.append crlf (String.append "OK" ws)))))
          = c :: (list_ascii_of_string pre
                  ++ [ascii_of_nat 13; ascii_of_nat 10]
                  ++ list_ascii_of_string name)
                 ++ [ascii_of_nat 13; ascii_of_nat 10; "O"%char; "K"%char]
                 ++ list_ascii_of_string ws) as Hdata.
  { cbn [String.append list_ascii_of_string].
    rewrite !list_ascii_of_string_append. simpl.
    by rewrite <- !app_assoc. }
  unfold trim. rewrite Hdata, trim_start_visible by done.
  rewrite app_comm_cons, trim_list by done.
  rewrite rev_involutive.
  rewrite <- app_comm_cons, <- !app_assoc, app_comm_cons.
  rewrite match_list by done.
  by rewrite string_of_list_ascii_of_string.
Qed.

(** ** Calls of [registerDevice] *)

Lemma not_offline_eqb device :
  device_type device <> "offline" ->
  String.eqb (device_type device) "offline" = false.
Proof. apply String.eqb_neq. Qed.

(** X11. When [getProperties] rejects for a device an [add] event
    announced, the promise of [createDevice] never settles: the registry is
    as before and the call of [registerDevice] stays abandoned whatever
    happens next. *)
Theorem properties_rejection_abandons w device reason :
  device_type device <> "offline" ->
  let k := length (inflight w) in
  exists w',
    run w [TrackerAdd device; PropertiesRejected k reason] = Normal w'
    /\ devices w' = devices w
    /\ progress_of k w' = Some Abandoned
    /\ (forall es w'', run w' es = Normal w'' ->
                       progress_of k w'' = Some Abandoned).
Proof.
  intros Hon k. subst k. apply not_offline_eqb in Hon.
  cbn [run step]. unfold on_add. rewrite Hon. cbn [negb].
  unfold on_properties_rejected. rewrite registerDevice_lookup.
  cbn [progress deviceData_of createDevice settle].
  eexists. split; [reflexivity|].
  assert (progress_of (length (inflight w))
            (with_progress (length (inflight w)) Abandoned
               (registerDevice device w)) = Some Abandoned) as Hk.
  { unfold progress_of, with_progress. cbn [inflight registerDevice].
    by rewrite list_lookup_alter_eq, list_lookup_middle. }
  split_and!; [done|done|].
  intros es w''. by apply run_abandoned.
Qed.

Lemma physical_is_device device :
  createDevice_type device = physical -> device_type device = "device".
Proof.
  unfold createDevice_type.
  destruct (String.eqb (device_type device) "device") eqn:He; [|done].
  intros _. by apply String.eqb_eq.
Qed.

(** X12. A physical device is registered as soon as its properties
    arrive, under its [ro.product.model], without any probe: the effects are
    the property query, one [reverse] onto the server ports when the store
    has them, the [register-device] log entry and the plugin callbacks. *)
Theorem physical_device_registers_on_properties w device props :
  createDevice_type device = physical ->
  let k := length (inflight w) in
  let androidDevice :=
    AndroidDevice (device_id device) physical (ro_product_model props) in
  exists w',
    run w [TrackerAdd device; PropertiesResolved k props] = Normal w'
    /\ androidDevice ∈ devices w'
    /\ progress_of k w' = Some Registered
    /\ effects w' =
       effects w
       ++ [GetProperties (device_id device)]
       ++ match serverPorts w with
          | Some ports =>
              [Reverse (device_id device) [secure ports; insecure ports]]
          | None => []
          end
       ++ [TrackRegisterDevice (ro_product_model props) (device_id device);
           RegisterDeviceCallbackOnPlugins androidDevice].
Proof.
  intros Hphys k androidDevice. subst k.
  pose proof (physical_is_device _ Hphys) as Htype.
  assert (String.eqb (device_type device) "offline" = false) as Hoff
    by (by rewrite Htype).
  cbn [run step]. unfold on_add. rewrite Hoff. cbn [negb].
  unfold on_properties. rewrite registerDevice_lookup.
  cbn [progress deviceData_of]. rewrite Hphys.
  unfold createDevice. rewrite Hphys.
  eexists. split; [reflexivity|]. split_and!.
  - unfold settle, registerDevice_resume. simpl. apply REGISTER_DEVICE_elem.
  - unfold progress_of, settle, registerDevice_resume. simpl.
    by rewrite !list_lookup_alter_eq, list_lookup_middle.
  - unfold settle, registerDevice_resume. simpl.
    destruct (serverPorts w); simpl; by rewrite <- !app_assoc.
Qed.

Lemma substring_all s : String.substring 0 (String.length s) s = s.
Proof. induction s as [|c s IH]; simpl; [done|]. by rewrite IH. Qed.

Lemma replace_unfold pat rep s :
  replace pat rep s =
  if String.prefix pat s
  then String.append rep (String.substring (String.length pat)
                            (String.length s - String.length pat) s)
  else match s with
       | EmptyString => EmptyString
       | String c s' => String c (replace pat rep s')
       end.
Proof. by destruct s. Qed.

Lemma prefix_append pat s : String.prefix pat (String.append pat s) = true.
Proof.
  induction pat as [|c pat IH]; [by destruct s|].
  change (String.append (String c pat) s) with (String c (String.append pat s)).
  simpl. rewrite IH. by destruct (ascii_dec c c).
Qed.

Lemma substring_append pat s :
  String.substring (String.length pat)
    (String.length (String.append pat s) - String.length pat)
    (String.append pat s) = s.
Proof.
  induction pat as [|c pat IH].
  - change (String.append "" s) with s. simpl.
    rewrite Nat.sub_0_r. apply substring_all.
  - change (String.append (String c pat) s)
      with (String c (String.append pat s)).
    simpl. apply IH.
Qed.

(** [replace] on a string that starts with the pattern. *)
Lemma replace_prefix pat rep s :
  replace pat rep (String.append pat s) = String.append rep s.
Proof.
  by rewrite replace_unfold, prefix_append, substring_append.
Qed.

(** X13. A device whose id is [emulator-] followed by a port is an
    emulator whatever type the tracker reports; when its properties arrive
    the watcher probes that port for the name and leaves the registry as it
    is until the probe answers. *)
Theorem emulator_probe_port w port type props :
  type <> "offline" ->
  let device := DeviceData (String.append "emulator-" port) type in
  let k := length (inflight w) in
  createDevice_type device = emulator
  /\ exists w',
      run w [TrackerAdd device; PropertiesResolved k props] = Normal w'
      /\ devices w' = devices w
      /\ progress_of k w' = Some (AwaitingEmulatorName props)
      /\ effects w' =
         effects w
         ++ [GetProperties (String.append "emulator-" port); ExecAvdName port].
Proof.
  intros Hon device k. subst k.
  assert (createDevice_type device = emulator) as Hemu.
  { unfold createDevice_type, device. cbn. by rewrite orb_true_r. }
  split; [done|].
  assert (String.eqb (device_type device) "offline" = false) as Hoff
    by (by apply String.eqb_neq).
  cbn [run step]. unfold on_add. rewrite Hoff. cbn [negb].
  unfold on_properties. rewrite registerDevice_lookup.
  cbn [progress deviceData_of]. rewrite Hemu.
  eexists. split; [reflexivity|]. split_and!.
  - done.
  - unfold progress_of, with_progress. cbn [inflight doing registerDevice].
    by rewrite list_lookup_alter_eq, list_lookup_middle.
  - cbn [effects with_progress doing registerDevice device_id device].
    rewrite <- app_assoc. do 3 f_equal. cbn.
    f_equal. apply (replace_prefix "emulator-" "" port).
Qed.

(** ** What is in the registry *)

(** The device [createDevice] resolves to. *)
Lemma createDevice_resolved device properties error data androidDevice :
  createDevice device properties error data = Resolved androidDevice ->
  serial androidDevice = device_id device
  /\ deviceType androidDevice = createDevice_type device
  /\ isArchived androidDevice = false
  /\ isAndroidDevice androidDevice = true.
Proof.
  intros H. unfold createDevice, getRunningEmulatorName in H.
  repeat case_match; try done; by injection H as <-.
Qed.







(** ** [remove] and [offline] *)

(** X15. On the modelled registry, a [remove] event for a live device
    leaves the archived copy of that device as the only entry with its
    serial and keeps every other entry; a [change] event with type
    [offline] does the same. *)
Theorem remove_archives_live_device w0 es w device d :
  NoDup (serial <$> devices w0) ->
  run w0 es = Normal w ->
  d ∈ devices w ->
  serial d = device_id device ->
  isArchived d = false ->
  let w' := on_remove device w in
  archive d ∈ devices w'
  /\ (forall x, x ∈ devices w' -> serial x = device_id device ->
                x = archive d)
  /\ (forall x, serial x <> device_id device ->
                x ∈ devices w' <-> x ∈ devices w)
  /\ (device_type device = "offline" -> on_change device w = w').
Proof.
  intros Hnd0 Hrun Hd Hs Hlive w'.
  pose proof (run_NoDup _ _ _ Hnd0 Hrun) as Hnd.
  assert (NoDup [device_id device]) as Hids by apply NoDup_singleton.
  subst w'. unfold on_remove. split_and!.
  - apply unregisterDevices_elem; [done|done|]. right. exists d.
    split_and!; try done. rewrite Hs. by left.
  - intros x Hx Hsx.
    apply unregisterDevices_elem in Hx as [[_ Hn]|(d' & Hd' & Hid & _ & ->)];
      [|f_equal|done|done].
    + destruct Hn. rewrite Hsx. by left.
    + apply list_elem_of_singleton in Hid.
      apply (serial_unique_elem (devices w)); congruence.
  - intros x Hx. rewrite unregisterDevices_elem by done. split.
    + intros [[? _]|(d' & _ & Hid & _ & ->)]; [done|].
      apply list_elem_of_singleton in Hid. simpl in Hx. done.
    + intros Hin. left. split; [done|].
      by intros ?%list_elem_of_singleton.
  - intros Hoff. unfold on_change. by rewrite Hoff.
Qed.

(** X16. On the modelled registry, a [remove] event for an id that has no
    live entry leaves no entry with that serial (an entry that was archived
    before is dropped, not kept) and keeps every other entry; the
    [unregister-device] log entry is written all the same. *)
Theorem remove_without_live_device_clears_serial w0 es w device :
  NoDup (serial <$> devices w0) ->
  run w0 es = Normal w ->
  (forall d, d ∈ devices w -> serial d = device_id device ->
             isArchived d = true) ->
  let w' := on_remove device w in
  (forall x, x ∈ devices w' <-> x ∈ devices w /\ serial x <> device_id device)
  /\ effects w' = effects w ++ [TrackUnregisterDevice (device_id device)].
Proof.
  intros Hnd0 Hrun Harch w'.
  pose proof (run_NoDup _ _ _ Hnd0 Hrun) as Hnd.
  assert (NoDup [device_id device]) as Hids by apply NoDup_singleton.
  subst w'. unfold on_remove. split; [|done].
  intros x. rewrite unregisterDevices_elem by done. split.
  - intros [[? Hn]|(d' & Hd' & Hid & Hlive & ->)].
    + split; [done|]. intros Hs. apply Hn. rewrite Hs. by left.
    + apply list_elem_of_singleton in Hid.
      rewrite (Harch d' Hd' Hid) in Hlive. done.
  - intros [Hin Hne]. left. split; [done|].
    by intros ?%list_elem_of_singleton.
Qed.

(** ** [getActiveAndroidDevices] *)

Lemma Promise_all_resolved {A} (ps : list (settled A)) l :
  Promise_all ps = Resolved l <-> ps = map Resolved l.
Proof.
  revert l. induction ps as [|p ps IH]; intros l; simpl.
  - split; [by intros [= <-]|]. by destruct l.
  - destruct p as [a|reason|], (Promise_all ps) as [l'|reason'|] eqn:Hall;
      (split; [try done|]).
    + intros [= <-]. simpl. f_equal. by apply IH.
    + destruct l as [|a' l]; [done|]. intros [= -> Hps].
      apply IH in Hps. by injection Hps as ->.
    + destruct l as [|a' l]; [done|]. intros [= -> Hps]. by apply IH in Hps.
    + destruct l as [|a' l]; [done|]. intros [= -> Hps]. by apply IH in Hps.
    + by destruct l.
    + by destruct l.
    + by destruct l.
    + by destruct l.
    + by destruct l.
    + by destruct l.
Qed.

Lemma Promise_all_rejected {A} (ps : list (settled A)) reason :
  Promise_all ps = Rejected reason -> Rejected reason ∈ ps.
Proof.
  induction ps as [|p ps IH]; simpl; [done|].
  destruct p as [a|reason'|], (Promise_all ps) as [l'|reason''|];
    try done; intros [= <-]; try (by left); right; by apply IH.
Qed.

Lemma Promise_all_pending {A} (ps : list (settled A)) :
  NeverSettles ∈ ps -> (forall reason, Rejected reason ∉ ps) ->
  Promise_all ps = NeverSettles.
Proof.
  intros Hin Hno. destruct (Promise_all ps) as [l|reason|] eqn:Hall; [| |done].
  - apply Promise_all_resolved in Hall. subst ps.
    apply list_elem_of_In, in_map_iff in Hin as (? & ? & _). done.
  - apply Promise_all_rejected in Hall. by destruct (Hno reason).
Qed.

(** X17. When [getActiveAndroidDevices] resolves, [listDevices] had
    resolved and the result lists one live Android device per listed
    device, in the order of the listing, with the listed ids as serials. *)
Theorem active_devices_resolved client listDevices env l :
  getActiveAndroidDevices client listDevices env = Resolved l ->
  exists androidDevices,
    listDevices = Resolved androidDevices
    /\ serial <$> l = device_id <$> androidDevices
    /\ Forall (fun d => isArchived d = false /\ isAndroidDevice d = true) l.
Proof.
  unfold getActiveAndroidDevices.
  destruct client as [[]| |]; [|done|done].
  destruct listDevices as [androidDevices| |]; [|done|done].
  intros Hall%Promise_all_resolved. exists androidDevices. split; [done|].
  revert env l Hall.
  induction androidDevices as [|device ds IH]; intros env l Hall.
  - destruct l; [|done]. by split.
  - destruct l as [|d l]; [done|]. cbn [imap map] in Hall.
    injection Hall as Hd Hl.
    destruct (IH (env ∘ S) l Hl) as [Hs Hf].
    destruct (createDevice_resolved _ _ _ _ _ Hd) as (Hser & _ & Ha & Hand).
    split.
    + rewrite !fmap_cons. by rewrite Hser, Hs.
    + by constructor.
Qed.

(** X18. When the promise of [createDevice] never settles for one listed
    device (its [getProperties] fails, or the probe of an emulator hands
    over no data), [getActiveAndroidDevices] never settles either, whatever
    the other devices do. *)
Theorem one_device_blocks_the_listing client androidDevices env i device :
  client = Resolved () ->
  androidDevices !! i = Some device ->
  createDevice device (properties_answer (env i)) (probe_error (env i))
    (probe_data (env i)) = NeverSettles ->
  getActiveAndroidDevices client (Resolved androidDevices) env = NeverSettles.
Proof.
  intros -> Hi Hdev. unfold getActiveAndroidDevices.
  apply Promise_all_pending.
  - apply list_elem_of_lookup. exists i.
    by rewrite list_lookup_imap, Hi, <- Hdev.
  - intros reason [j Hj]%list_elem_of_lookup.
    rewrite list_lookup_imap in Hj.
    destruct (androidDevices !! j) as [dev|]; [|done]. simpl in Hj.
    injection Hj as Hj. unfold createDevice, getRunningEmulatorName in Hj.
    by repeat case_match.
Qed.

(** ** The list of virtual devices *)

Lemma split_newline_nonempty s : split_newline s <> [].
Proof.
  destruct s as [|c s]; simpl; [done|].
  destruct (decide (c = LF)); [done|]. by destruct (split_newline s).
Qed.

Lemma split_newline_pieces s :
  Forall (fun piece => no_line_feed piece = true) (split_newline s).
Proof.
  induction s as [|c s IH]; simpl; [by repeat constructor|].
  destruct (decide (c = LF)) as [->|Hc]; [by constructor|].
  destruct (split_newline s) as [|piece pieces]; simpl.
  - constructor; [|done]. simpl. by rewrite bool_decide_eq_false_2.
  - apply Forall_cons in IH as [Hp Hps]. constructor; [|done].
    simpl. by rewrite bool_decide_eq_false_2.
Qed.

Lemma split_newline_line name rest :
  no_line_feed name = true ->
  split_newline (String.append name (String LF rest))
  = name :: split_newline rest.
Proof.
  induction name as [|c name IH]; intros Hn.
  - change (String.append "" (String LF rest)) with (String LF rest).
    cbn [split_newline]. by rewrite decide_True.
  - change (String.append (String c name) (String LF rest))
      with (String c (String.append name (String LF rest))).
    simpl in Hn. apply andb_true_iff in Hn as [Hc Hn].
    apply negb_true_iff, bool_decide_eq_false in Hc.
    cbn [split_newline]. rewrite decide_False by done. by rewrite IH.
Qed.

Lemma split_newline_unlines names :
  Forall (fun name => no_line_feed name = true) names ->
  split_newline (unlines names) = names ++ [EmptyString].
Proof.
  induction 1 as [|name names Hn Hns IH]; [done|].
  cbn [unlines]. rewrite split_newline_line by done. by rewrite IH.
Qed.

(** X19. The [-list-avds] callback dispatches names only when it got no
    error and a string, and then every name is non-empty and holds no line
    feed. *)
Theorem listed_names_are_lines error data payload :
  list_avds_callback error data = inr payload ->
  nullish error = true
  /\ exists s, data = Some s
     /\ Forall (fun name => name <> "" /\ no_line_feed name = true) payload.
Proof.
  unfold list_avds_callback. destruct data as [s|]; [|done].
  destruct (nullish error); [|done]. intros [= <-]. split; [done|].
  exists s. split; [done|]. apply Forall_forall. intros name Hin.
  apply list_elem_of_In, filter_In in Hin as [Hin Hne]. split.
  - intros ->. done.
  - pose proof (split_newline_pieces s) as Hf. rewrite Forall_forall in Hf.
    apply Hf. by apply list_elem_of_In.
Qed.

(** X20. When the command prints names that are non-empty and hold no
    line feed, each followed by a line feed, and reports no error, the
    payload dispatched is exactly those names, in order. *)
Theorem listed_names_roundtrip error names :
  nullish error = true ->
  Forall (fun name => name <> "" /\ no_line_feed name = true) names ->
  list_avds_callback error (Some (unlines names)) = inr names.
Proof.
  intros Herr Hnames. unfold list_avds_callback. rewrite Herr. simpl.
  f_equal. rewrite split_newline_unlines.
  - unfold nonempty_pieces. rewrite List.filter_app. simpl. rewrite app_nil_r.
    induction Hnames as [|name names [Hne _] _ IH]; [done|]. simpl.
    apply String.eqb_neq in Hne. by rewrite Hne, IH.
  - eapply Forall_impl; [done|]. by intros ? [_ ?].
Qed.


Lemma console_name_is_one_line_witness :
  getRunningEmulatorName killed (VString avd_answer)
  = Resolved (VString "Pixel_2_API_28")
  /\ Forall (fun c => is_line_terminator c = false)
       (list_ascii_of_string "Pixel_2_API_28").
Proof.
  assert (getRunningEmulatorName killed (VString avd_answer)
          = Resolved (VString "Pixel_2_API_28")) as H1
    by (vm_compute; reflexivity).
  split; [done|].
  exact (console_name_is_one_line killed (VString avd_answer)
           "Pixel_2_API_28" H1).
Defined.

Lemma console_answer_roundtrip_witness :
  getRunningEmulatorName killed
    (VString
       (String.append "Android Console"
          (String.append crlf
             (String.append "Pixel_2_API_28"
                (String.append crlf (String.append "OK" crlf))))))
  = Resolved (VString "Pixel_2_API_28").
Proof.
  apply (console_answer_roundtrip killed "A" "ndroid Console"
           "Pixel_2_API_28" crlf).
  - vm_compute; reflexivity.
  - repeat constructor.
  - repeat constructor.
Defined.

Lemma properties_rejection_abandons_witness :
  exists w',
    run (started None) [TrackerAdd pixel; PropertiesRejected 0 killed]
    = Normal w'
    /\ devices w' = []
    /\ progress_of 0 w' = Some Abandoned.
Proof.
  assert (device_type pixel <> "offline") as H1 by (vm_compute; congruence).
  destruct (properties_rejection_abandons (started None) pixel killed H1)
    as (w' & Hrun & Hd & Hp & _).
  exists w'. split_and!; [exact Hrun|exact Hd|exact Hp].
Defined.

Lemma physical_device_registers_on_properties_witness :
  exists w',
    run (started None) [TrackerAdd pixel; PropertiesResolved 0 pixel_props]
    = Normal w'
    /\ AndroidDevice "8AXY0123" physical (VString "Pixel 3") ∈ devices w'
    /\ progress_of 0 w' = Some Registered.
Proof.
  assert (createDevice_type pixel = physical) as H1
    by (vm_compute; reflexivity).
  destruct (physical_device_registers_on_properties (started None) pixel
              pixel_props H1) as (w' & Hrun & Hd & Hp & _).
  exists w'. split_and!; [exact Hrun|exact Hd|exact Hp].
Defined.

Lemma emulator_probe_port_witness :
  createDevice_type emulator_5554 = emulator
  /\ exists w',
      run (started None)
        [TrackerAdd emulator_5554; PropertiesResolved 0 sdk_props]
      = Normal w'
      /\ devices w' = []
      /\ effects w' = [GetProperties "emulator-5554"; ExecAvdName "5554"].
Proof.
  assert ("device" <> "offline") as H1 by congruence.
  destruct (emulator_probe_port (started None) "5554" "device" sdk_props H1)
    as (Ht & w' & Hrun & Hd & _ & He).
  split; [exact Ht|]. exists w'. split_and!; [exact Hrun|exact Hd|exact He].
Defined.


Lemma remove_archives_live_device_witness :
  let es := [TrackerAdd pixel; PropertiesResolved 0 pixel_props] in
  let w := state_of (run (started None) es) in
  let d := AndroidDevice "8AXY0123" physical (VString "Pixel 3") in
  devices w = [d]
  /\ archive d ∈ devices (on_remove pixel w)
  /\ on_change pixel_offline w = on_remove pixel_offline w.
Proof.
  intros es w d.
  assert (NoDup (serial <$> devices (started None))) as H1
    by apply NoDup_nil_2.
  assert (run (started None) es = Normal w) as H2
    by (vm_compute; reflexivity).
  assert (devices w = [d]) as Hw by (vm_compute; reflexivity).
  assert (d ∈ devices w) as H3 by (rewrite Hw; by left).
  assert (serial d = device_id pixel) as H4 by reflexivity.
  assert (serial d = device_id pixel_offline) as H4' by reflexivity.
  assert (isArchived d = false) as H5 by reflexivity.
  destruct (remove_archives_live_device (started None) es w pixel d
              H1 H2 H3 H4 H5) as (Ha & _).
  destruct (remove_archives_live_device (started None) es w pixel_offline d
              H1 H2 H3 H4' H5) as (_ & _ & _ & Hc).
  split_and!; [exact Hw|exact Ha|]. by apply Hc.
Defined.

Lemma remove_without_live_device_clears_serial_witness :
  let es := [TrackerAdd pixel; PropertiesResolved 0 pixel_props;
             TrackerRemove pixel] in
  let w := state_of (run (started None) es) in
  let d := AndroidDevice "8AXY0123" physical (VString "Pixel 3") in
  devices w = [archive d]
  /\ (forall x, x ∈ devices (on_remove pixel w) <->
                x ∈ devices w /\ serial x <> device_id pixel)
  /\ effects (on_remove pixel w)
     = effects w ++ [TrackUnregisterDevice "8AXY0123"].
Proof.
  intros es w d.
  assert (NoDup (serial <$> devices (started None))) as H1
    by apply NoDup_nil_2.
  assert (run (started None) es = Normal w) as H2
    by (vm_compute; reflexivity).
  assert (devices w = [archive d]) as Hw by (vm_compute; reflexivity).
  assert (forall x, x ∈ devices w -> serial x = device_id pixel ->
                    isArchived x = true) as H3.
  { intros x Hx _. rewrite Hw in Hx.
    apply elem_of_cons in Hx as [->|Hx]; [reflexivity|].
    by apply elem_of_nil in Hx. }
  destruct (remove_without_live_device_clears_serial (started None) es w
              pixel H1 H2 H3) as [Ha Hb].
  split_and!; [exact Hw|exact Ha|exact Hb].
Defined.

Lemma active_devices_resolved_witness :
  let env := fun _ : nat => Answers (Resolved pixel_props) VNull VNull in
  let l := [AndroidDevice "8AXY0123" physical (VString "Pixel 3")] in
  getActiveAndroidDevices (Resolved ()) (Resolved [pixel]) env = Resolved l
  /\ exists androidDevices,
      Resolved [pixel] = Resolved androidDevices
      /\ serial <$> l = device_id <$> androidDevices
      /\ Forall (fun d => isArchived d = false /\ isAndroidDevice d = true) l.
Proof.
  intros env l.
  assert (getActiveAndroidDevices (Resolved ()) (Resolved [pixel]) env
          = Resolved l) as H1 by (vm_compute; reflexivity).
  split; [exact H1|].
  exact (active_devices_resolved (Resolved ()) (Resolved [pixel]) env l H1).
Defined.

Lemma one_device_blocks_the_listing_witness :
  let env := fun i : nat =>
               match i with
               | 0 => Answers (Resolved pixel_props) VNull VNull
               | _ => Answers (Rejected killed) VNull VNull
               end in
  getActiveAndroidDevices (Resolved ()) (Resolved [pixel; emulator_5554]) env
  = NeverSettles.
Proof.
  intros env.
  apply (one_device_blocks_the_listing (Resolved ()) [pixel; emulator_5554]
           env 1 emulator_5554).
  - reflexivity.
  - reflexivity.
  - vm_compute; reflexivity.
Defined.

Lemma listed_names_are_lines_witness :
  let data := unlines ["Pixel_2_API_28"; "Nexus_5X_API_26"] in
  let payload := ["Pixel_2_API_28"; "Nexus_5X_API_26"] in
  list_avds_callback VNull (Some data) = inr payload
  /\ Forall (fun name => name <> "" /\ no_line_feed name = true) payload.
Proof.
  intros data payload.
  assert (list_avds_callback VNull (Some data) = inr payload) as H1
    by (vm_compute; reflexivity).
  split; [exact H1|].
  destruct (listed_names_are_lines VNull (Some data) payload H1)
    as (_ & s & Hs & Hf).
  exact Hf.
Defined.

Lemma listed_names_roundtrip_witness :
  list_avds_callback VNull
    (Some (unlines ["Pixel_2_API_28"; "Nexus_5X_API_26"]))
  = inr ["Pixel_2_API_28"; "Nexus_5X_API_26"].
Proof.
  apply (listed_names_roundtrip VNull ["Pixel_2_API_28"; "Nexus_5X_API_26"]).
  - reflexivity.
  - repeat constructor; congruence.
Defined.

End DevicesMore.

(** * Where the descriptors come from *)

Module ManifestFacts.
Import Js Plugins PluginsFacts Manifest.

Lemma with_out_keys plugin v :
  "out" ∈ keys plugin -> keys (with_out plugin v) = keys plugin.
Proof.
  unfold keys. induction plugin as [|[k x] plugin IH]; simpl.
  - by intros ?%elem_of_nil.
  - destruct (decide (k = "out")) as [->|Hk]; [done|].
    intros [?|Hin]%elem_of_cons; [done|]. simpl. f_equal. by apply IH.
Qed.

Lemma with_out_get plugin v : get (with_out plugin v) "out" = v.
Proof.
  induction plugin as [|[k x] plugin IH]; cbn [with_out get].
  - by rewrite decide_True.
  - destruct (decide (k = "out")) as [->|Hk]; cbn [get].
    + by rewrite decide_True.
    + by rewrite decide_False.
Qed.

Lemma with_out_get_other plugin v k :
  k <> "out" -> get (with_out plugin v) k = get plugin k.
Proof.
  intros Hk. induction plugin as [|[k0 x] plugin IH]; cbn [with_out get].
  - by rewrite decide_False.
  - destruct (decide (k0 = "out")) as [->|Hk0]; cbn [get].
    + by rewrite !decide_False.
    + destruct (decide (k0 = k)); [done|]. apply IH.
Qed.

Lemma get_in_keys plugin k :
  get plugin k <> VUndefined -> k ∈ keys plugin.
Proof.
  unfold keys. induction plugin as [|[k0 x] plugin IH]; simpl; [done|].
  destruct (decide (k0 = k)) as [->|Hk]; [intros _; by left|].
  intros H. right. by apply IH.
Qed.

Section Sources.

Context (path_join : string -> string -> string).

Local Abbreviation bundle := (bundle path_join).
Local Abbreviation getBundledPlugins := (getBundledPlugins path_join).

(** What a bundled descriptor looks like. *)
Lemma bundle_inr pp plugin plugin' :
  bundle pp plugin = inr plugin' ->
  keys plugin' = keys plugin
  /\ (exists out, get plugin "out" = VString out
                  /\ get plugin' "out" = VString (path_join pp out))
  /\ (forall k, k <> "out" -> get plugin' k = get plugin k).
Proof.
  unfold Manifest.bundle.
  destruct (get plugin "out") as [| | | | |out|] eqn:Hout; try done.
  intros [= <-]. split_and!.
  - apply with_out_keys, get_in_keys. by rewrite Hout.
  - exists out. split; [done|]. apply with_out_get.
  - intros k Hk. by apply with_out_get_other.
Qed.

Lemma map_throwing_inr {A B E} (f : A -> E + B) l l' :
  map_throwing f l = inr l' -> Forall2 (fun x y => f x = inr y) l l'.
Proof.
  revert l'. induction l as [|x l IH]; intros l'; simpl.
  - intros [= <-]. constructor.
  - destruct (f x) as [e|y] eqn:Hx; [done|].
    destruct (map_throwing f l) as [e|ys]; [done|].
    intros [= <-]. constructor; [done|]. by apply IH.
Qed.

Lemma map_throwing_inl {A B E} (f : A -> E + B) l x e :
  x ∈ l -> f x = inl e -> exists e', map_throwing f l = inl e'.
Proof.
  intros Hin Hx. induction l as [|y l IH]; simpl.
  - by apply elem_of_nil in Hin.
  - destruct (f y) as [e'|y'] eqn:Hy; [by eauto|].
    apply elem_of_cons in Hin as [->|Hin]; [congruence|].
    destruct (IH Hin) as [e' ->]. by eauto.
Qed.

(** X21. When [getBundledPlugins] returns, it returns nothing outside a
    production build or when [index.json] cannot be read; otherwise it
    returns one descriptor per entry of the index, in order, with the same
    keys in the same order, [out] joined onto the plugin path and every
    other field as it was. *)
Theorem bundled_descriptors_keep_their_fields isProduction pp index_json l :
  getBundledPlugins isProduction pp index_json = inr l ->
  (isProduction = false -> l = [])
  /\ (index_json = None -> l = [])
  /\ forall index, isProduction = true -> index_json = Some index ->
       Forall2
         (fun plugin plugin' =>
            keys plugin' = keys plugin
            /\ (exists out, get plugin "out" = VString out
                            /\ get plugin' "out" = VString (path_join pp out))
            /\ (forall k, k <> "out" -> get plugin' k = get plugin k))
         index l.
Proof.
  unfold Manifest.getBundledPlugins.
  destruct isProduction; simpl.
  - intros Hmap. split; [done|]. split.
    + intros ->. simpl in Hmap. by injection Hmap as <-.
    + intros index _ ->. apply map_throwing_inr in Hmap.
      eapply Forall2_impl; [done|]. intros plugin plugin'. apply bundle_inr.
  - intros [= <-]. by split_and!.
Qed.

(** X22. In a production build, one entry of the index whose [out] is not
    a string makes [getBundledPlugins] throw, whatever the other entries
    are. *)
Theorem bundled_descriptor_without_out_throws pp index plugin :
  plugin ∈ index ->
  (forall out, get plugin "out" <> VString out) ->
  exists e, getBundledPlugins true pp (Some index) = inl e.
Proof.
  intros Hin Hout. unfold Manifest.getBundledPlugins. simpl.
  apply (map_throwing_inl _ _ plugin (PathMustBeString (get plugin "out")));
    [done|].
  unfold Manifest.bundle.
  destruct (get plugin "out") as [| | | | |out|] eqn:Ho; try done.
  by destruct (Hout out).
Qed.

End Sources.

Lemma bundled_descriptors_keep_their_fields_witness :
  let l := [[("name", VString "logs");
             ("out", VString "/app/defaultPlugins/logs/index.js");
             ("title", VString "Logs")]] in
  getBundledPlugins join_plain true "/app/defaultPlugins"
    (Some [descriptor_logs]) = inr l
  /\ Forall2
       (fun plugin plugin' =>
          keys plugin' = keys plugin
          /\ (exists out,
                 get plugin "out" = VString out
                 /\ get plugin' "out"
                    = VString (join_plain "/app/defaultPlugins" out))
          /\ (forall k, k <> "out" -> get plugin' k = get plugin k))
       [descriptor_logs] l.
Proof.
  intros l.
  assert (getBundledPlugins join_plain true "/app/defaultPlugins"
            (Some [descriptor_logs]) = inr l) as H1
    by (vm_compute; reflexivity).
  split; [exact H1|].
  destruct (bundled_descriptors_keep_their_fields join_plain true
              "/app/defaultPlugins" (Some [descriptor_logs]) l H1)
    as (_ & _ & Hf).
  by apply Hf.
Defined.

Lemma bundled_descriptor_without_out_throws_witness :
  exists e,
    getBundledPlugins join_plain true "/app/defaultPlugins"
      (Some [descriptor_logs; descriptor_A]) = inl e.
Proof.
  apply (bundled_descriptor_without_out_throws join_plain
           "/app/defaultPlugins" [descriptor_logs; descriptor_A]
           descriptor_A).
  - right. by left.
  - intros out. vm_compute. congruence.
Defined.

End ManifestFacts.

(** * The menu bar *)

Module MenuBarFacts.
Import MenuBar.

Lemma Set_from_elem {A} `{EqDecision A} (l : list A) x :
  x ∈ Set_from l <-> x ∈ l.
Proof.
  induction l as [|y l IH]; simpl; [done|].
  rewrite !elem_of_cons, list_elem_of_In, filter_In, <- list_elem_of_In, IH.
  rewrite negb_true_iff, bool_decide_eq_false.
  destruct (decide (x = y)); intuition.
Qed.

Lemma Set_from_NoDup {A} `{EqDecision A} (l : list A) : NoDup (Set_from l).
Proof.
  induction l as [|y l IH]; simpl; [constructor|].
  apply NoDup_cons. split.
  - rewrite list_elem_of_In, filter_In, negb_true_iff, bool_decide_eq_false.
    intuition.
  - clear -IH. induction IH as [|x l' Hx Hl IH']; simpl; [constructor|].
    destruct (negb _); [|done]. apply NoDup_cons. split; [|done].
    rewrite list_elem_of_In, filter_In, <- list_elem_of_In. intuition.
Qed.

Lemma grown_by_refl a m : grown_by a m m.
Proof.
  split; [done|]. destruct (submenu m) as [items|]; [|done].
  exists []. by rewrite app_nil_r.
Qed.

Lemma grown_by_mono a b m m' :
  (forall k, k ∈ a -> k ∈ b) -> grown_by a m m' -> grown_by b m m'.
Proof.
  intros Hab [Hl Hs]. split; [done|].
  destruct (submenu m), (submenu m'); try done.
  destruct Hs as (added & -> & Hf). exists added. split; [done|].
  eapply Forall_impl; [done|]. intros i (k & ? & ? & ?). exists k. eauto.
Qed.

Lemma grown_by_trans a m1 m2 m3 :
  grown_by a m1 m2 -> grown_by a m2 m3 -> grown_by a m1 m3.
Proof.
  intros [Hl1 Hs1] [Hl2 Hs2]. split; [congruence|].
  destruct (submenu m1), (submenu m2), (submenu m3); try done.
  destruct Hs1 as (a1 & -> & Hf1), Hs2 as (a2 & -> & Hf2).
  exists (a1 ++ a2). split; [by rewrite app_assoc|].
  apply Forall_app. split; [done|].
  eapply Forall_impl; [done|]. intros i (k & ? & ? & ?). exists k.
  split_and!; try done. congruence.
Qed.

Lemma appendMenuItem_grown template k :
  Forall2 (grown_by [k]) template (appendMenuItem template k).
Proof.
  induction template as [|m rest IH]; simpl; [constructor|].
  destruct (decide (menu_label m = topLevelMenu k)) as [Hm|Hm].
  - destruct (submenu m) as [items|] eqn:Hs.
    + constructor.
      * split; [done|]. rewrite Hs. simpl. eexists. split; [done|].
        constructor; [|done]. exists k. split_and!; [by left|done|done].
      * apply Forall2_same_length_lookup_2; [done|].
        intros i x y Hx Hy. assert (x = y) as -> by congruence.
        apply grown_by_refl.
    + constructor; [apply grown_by_refl|].
      apply Forall2_same_length_lookup_2; [done|].
      intros i x y Hx Hy. assert (x = y) as -> by congruence.
      apply grown_by_refl.
  - constructor; [apply grown_by_refl|done].
Qed.

Lemma Forall2_grown_trans a t1 t2 t3 :
  Forall2 (grown_by a) t1 t2 -> Forall2 (grown_by a) t2 t3 ->
  Forall2 (grown_by a) t1 t3.
Proof.
  intros H12. revert t3. induction H12 as [|m1 m2 t1 t2 Hm H12 IH];
    intros t3 H23; inversion H23; subst; constructor.
  - by eapply grown_by_trans.
  - by apply IH.
Qed.

Lemma Forall2_grown_mono a b t t' :
  (forall k, k ∈ a -> k ∈ b) ->
  Forall2 (grown_by a) t t' -> Forall2 (grown_by b) t t'.
Proof.
  intros Hab H. eapply Forall2_impl; [done|].
  intros m m'. by apply grown_by_mono.
Qed.

Lemma Forall2_grown_refl a t : Forall2 (grown_by a) t t.
Proof. induction t; constructor; [apply grown_by_refl|done]. Qed.

Lemma add_actions_grown actions template :
  Forall2 (grown_by (omap action_of actions)) template
    (add_actions template actions).
Proof.
  unfold add_actions. revert template.
  induction actions as [|r actions IH]; intros template.
  { apply Forall2_grown_refl. }
  cbn [foldl].
  change (omap action_of (r :: actions))
    with (match action_of r with
          | Some k => k :: omap action_of actions
          | None => omap action_of actions
          end).
  destruct (action_of r) as [k|].
  - eapply Forall2_grown_trans.
    + eapply Forall2_grown_mono; [|apply appendMenuItem_grown].
      intros k' ->%list_elem_of_singleton. by left.
    + eapply Forall2_grown_mono; [|apply IH]. intros k' ?. by right.
  - apply IH.
Qed.

(** X23. [setupMenuBar] only appends to the template: every menu keeps its
    place and label, a menu without a submenu stays without, and a submenu
    keeps its items in front of the added ones, each of which is a disabled
    item of a registered action whose top-level menu is that menu. *)
Theorem menus_grow_by_registered_actions plugins template :
  Forall2 (grown_by (omap action_of (registeredActions plugins)))
    template (setupMenuBar_template plugins template).
Proof. apply add_actions_grown. Qed.

(** ** How many items *)

Lemma appendMenuItem_count template k :
  item_count (appendMenuItem template k) <= S (item_count template).
Proof.
  unfold item_count. induction template as [|m rest IH]; simpl; [lia|].
  destruct (decide (menu_label m = topLevelMenu k)).
  - destruct (submenu m) as [items|] eqn:Hs; simpl.
    + rewrite length_app. simpl. lia.
    + rewrite Hs. simpl. lia.
  - simpl. lia.
Qed.

Lemma add_actions_count actions template :
  item_count (add_actions template actions)
  <= item_count template + length (omap action_of actions).
Proof.
  unfold add_actions. revert template.
  induction actions as [|r actions IH]; intros template; [simpl; lia|].
  cbn [foldl].
  change (omap action_of (r :: actions))
    with (match action_of r with
          | Some k => k :: omap action_of actions
          | None => omap action_of actions
          end).
  destruct (action_of r) as [k|].
  - etrans; [apply IH|]. pose proof (appendMenuItem_count template k).
    simpl. lia.
  - apply IH.
Qed.

Lemma find_default_In name a :
  find_default name = Some a -> a ∈ defaultKeyboardActions.
Proof. intros [Hin _]%find_some. by apply list_elem_of_In. Qed.

(** Where a member of [registeredActions] comes from. *)
Lemma registered_elem plugins r :
  r ∈ registeredActions plugins <->
  exists actions e, Some actions ∈ plugins /\ e ∈ actions /\ r = resolve e.
Proof.
  unfold registeredActions. rewrite Set_from_elem.
  rewrite list_elem_of_In, in_map_iff. split.
  - intros (e & <- & Hin). apply in_concat in Hin as (l & Hl & Hin).
    apply in_map_iff in Hl as (ka & <- & Hka).
    destruct ka as [actions|]; [|done]. exists actions, e.
    split_and!; [by apply list_elem_of_In|by apply list_elem_of_In|done].
  - intros (actions & e & Hp & He & ->). exists e. split; [done|].
    apply in_concat. exists actions. split; [|by apply list_elem_of_In].
    apply in_map_iff. exists (Some actions).
    split; [done|by apply list_elem_of_In].
Qed.

Lemma actions_NoDup (rs : list registered) :
  NoDup rs -> (forall r ref a, r ∈ rs -> r <> Own ref a) ->
  NoDup (omap action_of rs).
Proof.
  induction 1 as [|r rs Hr Hrs IH]; intros Hown; csimpl.
  { constructor. }
  assert (NoDup (omap action_of rs)) as IH'.
  { apply IH. intros r' ref a Hr'. apply Hown. by right. }
  destruct r as [|a|ref a]; csimpl; [done| |].
  - apply NoDup_cons. split; [|done].
    intros (r' & Hr' & Ha)%list_elem_of_omap.
    destruct r' as [|a'|ref' a']; simpl in Ha; try done.
    + injection Ha as ->. done.
    + destruct (Hown (Own ref' a') ref' a'); [by right|done].
  - destruct (Hown (Own ref a) ref a); [by left|done].
Qed.

(** X24. When the plugins list only names of default actions, the
    registered actions hold no member twice and the template gains at most
    three items, however many plugins name the same action. *)
Theorem default_names_add_at_most_three_items plugins template :
  (forall actions e, Some actions ∈ plugins -> e ∈ actions ->
                     exists name, e = DefaultName name) ->
  NoDup (registeredActions plugins)
  /\ item_count (setupMenuBar_template plugins template)
     <= item_count template + 3.
Proof.
  intros Hdef. split; [apply Set_from_NoDup|].
  etrans; [apply add_actions_count|]. apply Nat.add_le_mono_l.
  change 3 with (length defaultKeyboardActions).
  apply submseteq_length, NoDup_submseteq.
  - apply actions_NoDup; [apply Set_from_NoDup|].
    intros r ref a (actions & e & Hp & He & ->)%registered_elem Heq.
    destruct (Hdef _ _ Hp He) as [name ->]. simpl in Heq.
    by destruct (find_default name).
  - intros a (r & Hr & Ha)%list_elem_of_omap.
    apply registered_elem in Hr as (actions & e & Hp & He & ->).
    destruct (Hdef _ _ Hp He) as [name ->]. simpl in Ha.
    destruct (find_default name) as [a0|] eqn:Hf; [|done].
    injection Ha as <-. by eapply find_default_In.
Qed.


(** ** Every action gets its item *)

Lemma grown_labels a t t' :
  Forall2 (grown_by a) t t' -> map menu_label t' = map menu_label t.
Proof.
  induction 1 as [|m m' t t' [Hl _] _ IH]; simpl; [done|]. by rewrite Hl, IH.
Qed.

Lemma grown_has_menu a L t t' :
  Forall2 (grown_by a) t t' -> has_menu L t -> has_menu L t'.
Proof.
  intros Hg (m & items & Hm & Hl & Hs).
  apply list_elem_of_lookup in Hm as [i Hi].
  destruct (Forall2_lookup_l _ _ _ _ _ Hg Hi) as (m' & Hi' & [Hl' Hs']).
  rewrite Hs in Hs'. destruct (submenu m') as [items'|] eqn:Hs''; [|done].
  exists m', items'. split_and!; [by eapply list_elem_of_lookup_2|congruence|done].
Qed.

Lemma grown_has_item a L it t t' :
  Forall2 (grown_by a) t t' -> has_item L it t -> has_item L it t'.
Proof.
  intros Hg (m & items & Hm & Hl & Hs & Hit).
  apply list_elem_of_lookup in Hm as [i Hi].
  destruct (Forall2_lookup_l _ _ _ _ _ Hg Hi) as (m' & Hi' & [Hl' Hs']).
  rewrite Hs in Hs'. destruct (submenu m') as [items'|] eqn:Hs''; [|done].
  destruct Hs' as (added & -> & _).
  exists m', (items ++ added).
  split_and!; [by eapply list_elem_of_lookup_2|congruence|done|].
  apply elem_of_app. by left.
Qed.

Lemma appendMenuItem_adds template k :
  NoDup (map menu_label template) ->
  has_menu (topLevelMenu k) template ->
  has_item (topLevelMenu k)
    (ActionItem (label k) (accelerator k) (action k) false)
    (appendMenuItem template k).
Proof.
  induction template as [|m rest IH]; intros Hnd (m0 & items & Hm & Hl & Hs).
  { by apply elem_of_nil in Hm. }
  simpl in Hnd. apply NoDup_cons in Hnd as [Hfresh Hnd]. simpl.
  destruct (decide (menu_label m = topLevelMenu k)) as [Hk|Hk].
  - assert (m0 = m) as ->.
    { apply elem_of_cons in Hm as [->|Hm]; [done|]. destruct Hfresh.
      rewrite Hk, <- Hl. apply list_elem_of_In, in_map.
      by apply list_elem_of_In. }
    rewrite Hs. eexists _, _. split_and!; [by left|done|done|].
    apply elem_of_app. right. by left.
  - apply elem_of_cons in Hm as [->|Hm]; [done|].
    destruct IH as (m' & items' & Hm' & Hl' & Hs' & Hit); [done| |].
    { by exists m0, items. }
    exists m', items'. split_and!; [by right|done|done|done].
Qed.

Lemma add_actions_adds actions template r k :
  NoDup (map menu_label template) ->
  has_menu (topLevelMenu k) template ->
  r ∈ actions -> action_of r = Some k ->
  has_item (topLevelMenu k)
    (ActionItem (label k) (accelerator k) (action k) false)
    (add_actions template actions).
Proof.
  revert template. induction actions as [|r0 actions IH];
    intros template Hnd Hmenu Hr Hk.
  { by apply elem_of_nil in Hr. }
  unfold add_actions. cbn [foldl]. fold (add_actions).
  set (t1 := match action_of r0 with
             | Some a => appendMenuItem template a
             | None => template
             end).
  assert (Forall2 (grown_by (omap action_of [r0])) template t1) as Hg.
  { subst t1. csimpl. destruct (action_of r0) as [a|].
    - apply appendMenuItem_grown.
    - apply Forall2_grown_refl. }
  change (foldl _ t1 actions) with (add_actions t1 actions).
  apply elem_of_cons in Hr as [->|Hr].
  - eapply grown_has_item; [apply add_actions_grown|].
    subst t1. rewrite Hk. by apply appendMenuItem_adds.
  - apply IH; [|by eapply grown_has_menu|done|done].
    by rewrite (grown_labels _ _ _ Hg).
Qed.

(** X25. When the menus of the template have distinct labels, every
    keyboard action of a plugin whose top-level menu is in the template
    with a submenu has its disabled item in that submenu. *)
Theorem registered_action_gets_its_item plugins template actions e k :
  NoDup (map menu_label template) ->
  Some actions ∈ plugins -> e ∈ actions -> action_of (resolve e) = Some k ->
  has_menu (topLevelMenu k) template ->
  has_item (topLevelMenu k)
    (ActionItem (label k) (accelerator k) (action k) false)
    (setupMenuBar_template plugins template).
Proof.
  intros Hnd Hp He Hk Hmenu.
  apply (add_actions_adds _ _ (resolve e)); [done|done| |done].
  apply registered_elem. by exists actions, e.
Qed.

Lemma default_names_add_at_most_three_items_witness :
  let plugins := [Some [DefaultName "clear"; DefaultName "createPaste"];
                  None;
                  Some [DefaultName "clear"; DefaultName "goToBottom";
                        DefaultName "paste"]] in
  NoDup (registeredActions plugins)
  /\ item_count (setupMenuBar_template plugins bare_template)
     <= item_count bare_template + 3.
Proof.
  intros plugins.
  apply (default_names_add_at_most_three_items plugins bare_template).
  intros actions e Hp He. unfold plugins in Hp.
  assert (forall l : list entry,
             Forall (fun e => exists name, e = DefaultName name) l ->
             Some actions = Some l -> exists name, e = DefaultName name) as Hl.
  { intros l Hall [= ->]. rewrite Forall_forall in Hall. by apply Hall. }
  apply elem_of_cons in Hp as [Hp|Hp].
  { eapply Hl; [|exact Hp]. repeat constructor; by eexists. }
  apply elem_of_cons in Hp as [Hp|Hp]; [discriminate Hp|].
  apply elem_of_cons in Hp as [Hp|Hp].
  { eapply Hl; [|exact Hp]. repeat constructor; by eexists. }
  by apply elem_of_nil in Hp.
Defined.

Lemma registered_action_gets_its_item_witness :
  has_item "Window" (ActionItem "Pin" None "pin" false)
    (setupMenuBar_template sample_plugins bare_template).
Proof.
  apply (registered_action_gets_its_item sample_plugins bare_template
           [DefaultName "clear"; Custom 0 (Action "pin" "Pin" None "Window")]
           (Custom 0 (Action "pin" "Pin" None "Window"))
           (Action "pin" "Pin" None "Window")).
  - apply (bool_decide_unpack _). vm_compute. exact I.
  - unfold sample_plugins. right. right. by left.
  - right. by left.
  - reflexivity.
  - exists (Menu "Window" (Some [TemplateItem "Minimize"; TemplateItem "Close"])),
      [TemplateItem "Minimize"; TemplateItem "Close"].
    split_and!; [|reflexivity|reflexivity].
    unfold bare_template. do 3 right. by left.
Defined.

End MenuBarFacts.
